(** * lib/bootstrap.js: the bootstrap entry point of Lando

    A shallow embedding of [module.exports = _.once(function(options) {...})]
    and of the library calls it is written with (lodash's [once], [isEmpty]
    and [has]; object-hash's entry check; the promise chain [then]/[map]),
    followed by the properties of the bootstrap sequence. *)

From stdpp Require Import gmap strings list fin_maps.

Set Warnings "-register-all,-clear-no-such-hyp".

(* ===================================================================== *)
(** ** Configuration values *)
(* ===================================================================== *)

(** A configuration value as JavaScript has it: [undefined], [null], a
    boolean, a number (integers only here), a string, an array or an object
    with string keys. *)
Inductive value :=
| VUndef
| VNull
| VBool (b : bool)
| VNum (n : Z)
| VStr (s : string)
| VArr (l : list value)
| VObj (m : gmap string value).

Abbreviation obj := (gmap string value).

(** [o.k]: reading a property that is not there gives [undefined]. *)
Definition prop (o : obj) (k : string) : value := default VUndef (o !! k).

(** The values JavaScript's [||] skips. *)
Definition falsy (v : value) : bool :=
  match v with
  | VUndef | VNull | VBool false | VNum 0 | VStr EmptyString => true
  | _ => false
  end.

(** [a || b] *)
Definition js_or (a b : value) : value := if falsy a then b else a.

Definition is_mapping (v : value) : bool :=
  match v with VObj _ => true | _ => false end.

(* ===================================================================== *)
(** ** Failures *)
(* ===================================================================== *)

(** The failures a bootstrap can end in.  The first five are the ones the
    collaborators raise; [JsError] and [TypeError] are the plain JavaScript
    errors raised by object-hash and by the promise library. *)
Inductive error :=
| ConfigLoadError (path : string)
| EnvParseError (name : string)
| InstanceBuildError (msg : string)
| EventHandlerError (event handler : string)
| PluginNotFoundError (plugin : string)
| PluginInitError (plugin : string)
| JsError (msg : string)
| TypeError (msg : string).

Definition result (A : Type) : Type := error + A.

(** Modelled from the spec: the stage a failure names (section 7 lists
    [config], [identity], [instance], [pre-bootstrap], [plugin:<name>] and
    [post-bootstrap]); the error classes live in the collaborators, which
    are not part of lib/bootstrap.js.  A plain JavaScript error names no
    stage. *)
Definition stage (e : error) : option string :=
  match e with
  | ConfigLoadError _ | EnvParseError _ => Some "config"
  | InstanceBuildError _ => Some "instance"
  | EventHandlerError ev _ => Some ev
  | PluginNotFoundError p | PluginInitError p => Some ("plugin:" +:+ p)
  | JsError _ | TypeError _ => None
  end.

(* ===================================================================== *)
(** ** lodash *)
(* ===================================================================== *)

Module Lodash.

(** [_.isEmpty]: [null] and [undefined] are empty, a string or an array is
    empty when its length is 0, an object when it has no own key; a number
    or a boolean has no own enumerable key, hence is empty. *)
Definition isEmpty (v : value) : bool :=
  match v with
  | VUndef | VNull | VBool _ | VNum _ => true
  | VStr s => bool_decide (s = EmptyString)
  | VArr l => bool_decide (length l = 0)
  | VObj m => bool_decide (size m = 0)
  end.

(** [_.has(object, key)]: [key] is an own property of [object]. *)
Definition has (o : obj) (k : string) : bool := bool_decide (is_Some (o !! k)).

End Lodash.

(* ===================================================================== *)
(** ** lib/config.js: the merge helper *)
(* ===================================================================== *)

Module Config.

(** Modelled from the spec: [merge] of lib/config.js, of which only the
    calls in lib/bootstrap.js are known.  Section 4.1: a deep merge in
    which, for a key present in both inputs, the later argument wins;
    mappings merge recursively, every other value (sequences included) is
    replaced wholesale; no input is mutated. *)
Fixpoint merge_val (old new : value) {struct new} : value :=
  match new with
  | VObj mn =>
      match old with
      | VObj mo =>
          VObj (map_imap (fun k v =>
                  Some (match mo !! k with
                        | Some u => merge_val u v
                        | None => v
                        end)) mn ∪ mo)
      | _ => new
      end
  | _ => new
  end.

(** Modelled from the spec: [helpers.merge(old, fresh)] on two
    configurations, the merge above at the top level. *)
Definition merge (old new : obj) : obj :=
  map_imap (fun k v =>
    Some (match old !! k with
          | Some u => merge_val u v
          | None => v
          end)) new ∪ old.

End Config.

(* ===================================================================== *)
(** ** The collaborators of the bootstrap *)
(* ===================================================================== *)

(** What an event handler is handed: the configuration for [pre-bootstrap],
    the instance for [post-bootstrap]. *)
Inductive payload (L : Type) :=
| PConfig (c : obj)
| PLando (l : L).
Arguments PConfig {L} c.
Arguments PLando {L} l.

(** lib/bootstrap.js requires [./config] and [./lando] and calls into the
    instance's [events] and [plugins]; it fixes how they are called, not
    what they do, so they are an interface here.  [Lando] is the state of
    the instance object, everything reachable from it included (its
    [config], the handlers registered on its event bus, what plugins
    attached): the object is shared and mutated in place, so every call that
    can touch it takes the state and gives the new one.

    - [emit name p l] is the settlement of the promise
      [lando.events.emit(name, p)]: the failure of a handler, or the state
      the handlers leave.
    - [load plugin dirs l] is the mapper's call
      [lando.plugins.load(plugin, dirs, lando)]: it throws, or it returns
      after the part of the registration that runs inside the call; [Some k]
      is a promise still pending on return, [k] being the rest of the
      registration, run when it settles; [None] is a registration that was
      complete on return.
    - [settle_order] is the order in which the pending loads settle, which
      depends on how long each one takes; whatever it is, each of them
      settles once. *)
Record collaborators := {
  Lando : Type;
  defaults : obj;
  loadFiles : value -> result obj;
  loadEnvs : value -> result obj;
  hash : value -> string;
  mkLando : obj -> result Lando;
  lando_config : Lando -> obj;
  emit : string -> payload Lando -> Lando -> result Lando;
  load : value -> value -> Lando ->
         result (Lando * option (Lando -> result Lando));
  settle_order :
    list (value * (Lando -> result Lando)) ->
    list (value * (Lando -> result Lando));
  settle_order_perm : forall q, settle_order q ≡ₚ q
}.


(* ===================================================================== *)
(** ** What a run does, in order *)
(* ===================================================================== *)

Inductive event (L : Type) :=
| EvDefaults
| EvMerge (old new : obj)
| EvLoadFiles (sources : value) (r : result obj)
| EvLoadEnvs (prefix : value) (r : result obj)
| EvHash (seed : value)
| EvBuild (config : obj)
| EvLog (level msg : string)
| EvEmit (name : string) (p : payload L)
| EvEmitDone (name : string)
| EvLoadBegin (plugin dirs : value)
| EvLoadEnd (plugin : value).
Arguments EvDefaults {L}.
Arguments EvMerge {L} old new.
Arguments EvLoadFiles {L} sources r.
Arguments EvLoadEnvs {L} prefix r.
Arguments EvHash {L} seed.
Arguments EvBuild {L} config.
Arguments EvLog {L} level msg.
Arguments EvEmit {L} name p.
Arguments EvEmitDone {L} name.
Arguments EvLoadBegin {L} plugin dirs.
Arguments EvLoadEnd {L} plugin.

Definition is_load {L} (e : event L) : bool :=
  match e with EvLoadBegin _ _ | EvLoadEnd _ => true | _ => false end.

(** The events of lines 77-94. *)
Definition is_config {L} (e : event L) : bool :=
  match e with
  | EvDefaults | EvMerge _ _ | EvLoadFiles _ _ | EvLoadEnvs _ _ | EvHash _ =>
      true
  | _ => false
  end.

Definition is_emit {L} (e : event L) : bool :=
  match e with EvEmit _ _ | EvEmitDone _ => true | _ => false end.

(** The plugins whose load was begun, in the order of the calls. *)
Fixpoint begun {L} (t : list (event L)) : list value :=
  match t with
  | [] => []
  | EvLoadBegin p _ :: t => p :: begun t
  | _ :: t => begun t
  end.

(** The number of loads begun and not yet complete at the end of [t],
    starting from [n] of them. *)
Fixpoint in_flight {L} (n : Z) (t : list (event L)) : Z :=
  match t with
  | [] => n
  | EvLoadBegin _ _ :: t => in_flight (n + 1) t
  | EvLoadEnd _ :: t => in_flight (n - 1) t
  | _ :: t => in_flight n t
  end.

(** The largest number of loads in flight at any point of [t]. *)
Fixpoint max_in_flight {L} (n : Z) (t : list (event L)) : Z :=
  match t with
  | [] => n
  | EvLoadBegin _ _ :: t => n `max` max_in_flight (n + 1) t
  | EvLoadEnd _ :: t => n `max` max_in_flight (n - 1) t
  | _ :: t => max_in_flight n t
  end.

(** *** A run: the events so far, and a failure or a value *)

Definition run (L A : Type) : Type := list (event L) * result A.

Definition ret {L A} (a : A) : run L A := ([], inr a).

Definition bind {L A B} (m : run L A) (f : A -> run L B) : run L B :=
  match m with
  | (t, inl e) => (t, inl e)
  | (t, inr a) => let '(t', r) := f a in (t ++ t', r)
  end.

Definition tell {L} (t : list (event L)) : run L unit := (t, inr tt).

Definition lift {L A} (r : result A) : run L A := ([], r).

Declare Scope run_scope.
Delimit Scope run_scope with run.
Notation "x <- m ;; k" := (bind m (fun x => k))
  (at level 100, m at next level, right associativity) : run_scope.
Notation "m ;;; k" := (bind m (fun _ => k))
  (at level 100, right associativity) : run_scope.
Open Scope run_scope.

(* ===================================================================== *)
(** ** lib/bootstrap.js *)
(* ===================================================================== *)

Module Bootstrap.
Import Lodash Config.

(** The promise the function returns, by what it settles to. *)
Inductive promise (L : Type) :=
| Fulfilled (lando : L)
| Rejected (e : error).
Arguments Fulfilled {L} lando.
Arguments Rejected {L} e.

(** How a call of the function ends. *)
Inductive outcome (L : Type) :=
| Threw (e : error)
| Returned (p : promise L).
Arguments Threw {L} e.
Arguments Returned {L} p.

(** lodash's [once(func)] is [before(2, func)]:
<<
    var result;
    return function() {
      if (--n > 0) { result = func.apply(this, arguments); }
      if (n <= 1) { func = undefined; }
      return result;
    };
>>
    The closure holds [n], [func] and [result]; [func] is [false] once it
    was set to [undefined]; [result] is [undefined] ([None]) until a call of
    [func] has returned. *)
Record once_cell (L : Type) := {
  n : Z;
  func : bool;
  once_result : option (promise L)
}.
Arguments n {L} _.
Arguments func {L} _.
Arguments once_result {L} _.

(** How a call of the exported function ends: with the exception [func]
    threw, or with the content of [result]. *)
Inductive call_outcome (L : Type) :=
| CallThrew (e : error)
| CallReturned (r : option (promise L)).
Arguments CallThrew {L} e.
Arguments CallReturned {L} r.

Section body.
Context (C : collaborators).

Abbreviation L := (Lando C).
Abbreviation M := (run (Lando C)).

(** *** Lines 77-94: the configuration *)

(** [helpers.merge(old, fresh)] *)
Definition do_merge (old fresh : obj) : M obj :=
  tell [EvMerge old fresh] ;;; ret (merge old fresh).

(** [helpers.loadFiles(sources)]: the files are read inside the call, a
    failure is an exception thrown out of it. *)
Definition do_loadFiles (sources : value) : M obj :=
  tell [EvLoadFiles sources (loadFiles C sources)] ;;;
  lift (loadFiles C sources).

(** [helpers.loadEnvs(prefix)] *)
Definition do_loadEnvs (prefix : value) : M obj :=
  tell [EvLoadEnvs prefix (loadEnvs C prefix)] ;;;
  lift (loadEnvs C prefix).

(** [hasher(seed)]: object-hash refuses [undefined]
    ([throw new Error('Object argument required.')]) and hashes every other
    value to a digest string. *)
Definition hasher (seed : value) : M string :=
  tell [EvHash seed] ;;;
  match seed with
  | VUndef => lift (inl (JsError "Object argument required."))
  | _ => ret (hash C seed)
  end.

(** Lines 84-86: [if (!_.isEmpty(config.configSources)) {...}] *)
Definition merge_files (config : obj) : M obj :=
  if negb (isEmpty (prop config "configSources"))
  then files <- do_loadFiles (prop config "configSources") ;;
       do_merge config files
  else ret config.

(** Lines 89-91: [if (_.has(config, 'envPrefix')) {...}] *)
Definition merge_envs (config : obj) : M obj :=
  if has config "envPrefix"
  then envs <- do_loadEnvs (prop config "envPrefix") ;;
       do_merge config envs
  else ret config.

(** Lines 81-94. *)
Definition resolve (options : obj) : M obj :=
  d <- (tell [EvDefaults] ;;; ret (defaults C)) ;;
  config <- do_merge d options ;;
  config <- merge_files config ;;
  config <- merge_envs config ;;
  id <- hasher (prop config "userConfRoot") ;;
  ret (<["id" := VStr id]> config).

(** *** Lines 96-101: the instance *)

(** [require('./lando')(config)] *)
Definition do_build (config : obj) : M L :=
  tell [EvBuild config] ;;; lift (mkLando C config).

(** Everything the function does before it calls [emit]; a failure here is
    an exception thrown out of the function itself. *)
Definition sync_phase (options : obj) : M L :=
  config <- resolve options ;;
  lando <- do_build config ;;
  tell [EvLog "info" "Bootstraping..."] ;;;
  tell [EvLog "silly" "It's not particularly silly, is it?"] ;;;
  ret lando.

(** *** Lines 125-166: the promise chain *)

(** [lando.events.emit(name, p)] and the wait for its promise. *)
Definition do_emit (name : string) (p : payload L) (lando : L) : M L :=
  tell [EvEmit name p] ;;;
  lando <- lift (emit C name p lando) ;;
  tell [EvEmitDone name] ;;;
  ret lando.

(** The input of [.map]: the promise library takes an array, or turns an
    iterable into one (a string gives its characters), and rejects with a
    [TypeError] anything else. *)
Definition as_array (v : value) : result (list value) :=
  match v with
  | VArr l => inr l
  | VStr s =>
      inr ((fun c => VStr (String c EmptyString))
             <$> String.list_ascii_of_string s)
  | _ => inl (TypeError "expecting an array or an iterable object")
  end.

(** [.map(mapper)], first half: the mapper is called on every element in
    turn, in one pass; a call that returns a pending promise does not hold up
    the next call.  [lando.config.pluginDirs] is read at each call.  A
    mapper that throws rejects the whole and ends the pass. *)
Fixpoint map_start (plugins : list value) (lando : L)
    (pending : list (value * (L -> result L)))
    : M (L * list (value * (L -> result L))) :=
  match plugins with
  | [] => ret (lando, pending)
  | plugin :: rest =>
      let dirs := prop (lando_config C lando) "pluginDirs" in
      tell [EvLoadBegin plugin dirs] ;;;
      r <- lift (load C plugin dirs lando) ;;
      match r with
      | (lando, None) =>
          tell [EvLoadEnd plugin] ;;; map_start rest lando pending
      | (lando, Some k) =>
          map_start rest lando (pending ++ [(plugin, k)])
      end
  end.

(** [.map(mapper)], second half: the pending loads settle, one after the
    other, each on the state the ones before it left; the first to fail
    rejects the whole, and the trace of the run stops there, where the
    promise of the bootstrap settles. *)
Fixpoint map_finish (pending : list (value * (L -> result L))) (lando : L)
    : M L :=
  match pending with
  | [] => ret lando
  | (plugin, k) :: rest =>
      lando <- lift (k lando) ;;
      tell [EvLoadEnd plugin] ;;;
      map_finish rest lando
  end.

Definition promise_map (plugins : list value) (lando : L) : M L :=
  started <- map_start plugins lando [] ;;
  map_finish (settle_order C started.2) started.1.

(** What the chain does up to the plugins, when the [pre-bootstrap]
    handlers succeed. *)
Definition pre_events (lando : L) : list (event L) :=
  [EvEmit "pre-bootstrap" (PConfig (lando_config C lando));
   EvEmitDone "pre-bootstrap";
   EvLog "debug" "Config set: %j"].

(** The chain from [emit('pre-bootstrap', lando.config)] to [return lando];
    a failure here is a rejection of the promise the function returned. *)
Definition async_phase (lando : L) : M L :=
  lando <- do_emit "pre-bootstrap" (PConfig (lando_config C lando)) lando ;;
  tell [EvLog "debug" "Config set: %j"] ;;;
  plugins <- lift (as_array (js_or (prop (lando_config C lando) "plugins")
                                   (VArr []))) ;;
  lando <- promise_map plugins lando ;;
  lando <- do_emit "post-bootstrap" (PLando lando) lando ;;
  tell [EvLog "info" "Bootstrap completed."] ;;;
  ret lando.

(** The function handed to [_.once]. *)
Definition bootstrap (options : obj) : list (event L) * outcome L :=
  match sync_phase options with
  | (t, inl e) => (t, Threw e)
  | (t, inr lando) =>
      match async_phase lando with
      | (t', inl e) => (t ++ t', Returned (Rejected e))
      | (t', inr lando) => (t ++ t', Returned (Fulfilled lando))
      end
  end.

(** *** Line 75: [_.once] *)

Definition once_init : once_cell L :=
  {| n := 2; func := true; once_result := None |}.

Definition call (st : once_cell L) (options : obj)
    : once_cell L * list (event L) * call_outcome L :=
  let n' := (n st - 1)%Z in
  if bool_decide (n' > 0)%Z then
    if func st then
      match bootstrap options with
      | (t, Threw e) =>
          ({| n := n'; func := func st; once_result := once_result st |},
           t, CallThrew e)
      | (t, Returned p) =>
          ({| n := n';
              func := if bool_decide (n' <= 1)%Z then false else func st;
              once_result := Some p |},
           t, CallReturned (Some p))
      end
    else
      ({| n := n'; func := func st; once_result := once_result st |},
       [], CallThrew (TypeError "Cannot read property 'apply' of undefined"))
  else
    ({| n := n';
        func := if bool_decide (n' <= 1)%Z then false else func st;
        once_result := once_result st |},
     [], CallReturned (once_result st)).

(** The calls a process makes of the exported function, one after the
    other, each with its own options: everything that happened, and how each
    call ended. *)
Fixpoint calls (st : once_cell L) (os : list obj)
    : list (event L) * list (call_outcome L) :=
  match os with
  | [] => ([], [])
  | options :: os =>
      let '(st, t, r) := call st options in
      let '(t', rs) := calls st os in
      (t ++ t', r :: rs)
  end.

End body.

Arguments once_init {C}.
Arguments pre_events : simpl never.

End Bootstrap.

(* ===================================================================== *)
(** ** Concrete collaborators, to run the bootstrap on *)
(* ===================================================================== *)

Module Demo.

(** An instance that keeps its configuration and the names of what was
    attached to it, oldest first. *)
Record instance := {
  i_config : obj;
  i_attached : list string
}.

Definition fresh (c : obj) : instance :=
  {| i_config := c; i_attached := [] |}.

Definition attach (s : string) (l : instance) : instance :=
  {| i_config := i_config l; i_attached := i_attached l ++ [s] |}.

Definition set_config (k : string) (v : value) (l : instance) : instance :=
  {| i_config := <[k := v]> (i_config l); i_attached := i_attached l |}.

Definition name_of (v : value) : string :=
  match v with VStr s => s | _ => "?" end.

(** A stand-in for the digest of object-hash. *)
Definition digest (v : value) : string :=
  match v with VStr s => "sha1(" +:+ s +:+ ")" | _ => "sha1(?)" end.

(** Collaborators built from the parts the examples vary: the defaults, what
    the files and the environment hold, what the [pre-bootstrap] handlers
    do, and whether a plugin registers within the call of [load] or later. *)
Definition collab (d : obj) (files envs : result obj)
    (pre : instance -> result instance) (later : bool) : collaborators :=
  {| Lando := instance;
     defaults := d;
     loadFiles := fun _ => files;
     loadEnvs := fun _ => envs;
     hash := digest;
     mkLando := fun c => inr (fresh c);
     lando_config := i_config;
     emit := fun name _ l =>
       if bool_decide (name = "pre-bootstrap") then pre l else inr l;
     load := fun plugin _ l =>
       if later
       then inr (attach ("begin " +:+ name_of plugin) l,
                 Some (fun l => inr (attach ("end " +:+ name_of plugin) l)))
       else inr (attach (name_of plugin) l, None);
     settle_order := fun q => q;
     settle_order_perm := fun q => reflexivity q |}.

Definition base : obj :=
  {[ "a" := VNum 1; "b" := VNum 1; "userConfRoot" := VStr "/home/me/.lando" ]}.

Definition opts : obj :=
  {[ "b" := VNum 2;
     "configSources" := VArr [VStr "/etc/lando.yml"];
     "envPrefix" := VStr "LANDO_" ]}.

(** A [pre-bootstrap] handler that puts two plugins in the configuration. *)
Definition add_plugins (l : instance) : result instance :=
  inr (set_config "plugins" (VArr [VStr "P1"; VStr "P2"]) l).

(** The example of the specification: defaults [{a:1,b:1}], options
    [{b:2}], files [{c:3}], environment [{a:4}]. *)
Definition good (later : bool) : collaborators :=
  collab base (inr {[ "c" := VNum 3 ]}) (inr {[ "a" := VNum 4 ]})
         add_plugins later.

(** The configuration file is missing. *)
Definition no_file : collaborators :=
  collab base (inl (ConfigLoadError "/nonexistent")) (inr ∅) add_plugins false.

(** The second [pre-bootstrap] handler fails. *)
Definition bad_handler : collaborators :=
  collab base (inr ∅) (inr ∅)
         (fun _ => inl (EventHandlerError "pre-bootstrap" "H2")) false.

(** No handler touches the configuration, which names no plugin. *)
Definition plain : collaborators :=
  collab base (inr ∅) (inr ∅) inr false.

(** Two keys in all four sources, [x] a mapping in each of them and [k] a
    number in each of them, and an [id] among the defaults. *)
Definition nested_base : obj :=
  {[ "id" := VNum 7; "x" := VObj {[ "p" := VNum 1 ]}; "k" := VNum 1;
     "userConfRoot" := VStr "/home/me/.lando" ]}.

Definition nested_opts : obj :=
  {[ "x" := VObj {[ "p" := VNum 2 ]}; "k" := VNum 2;
     "configSources" := VArr [VStr "/etc/lando.yml"];
     "envPrefix" := VStr "LANDO_" ]}.

Definition nested_files : obj :=
  {[ "x" := VObj {[ "p" := VNum 3 ]}; "k" := VNum 3 ]}.

Definition nested_envs : obj :=
  {[ "x" := VObj {[ "q" := VNum 4 ]}; "k" := VNum 4 ]}.

Definition nested : collaborators :=
  collab nested_base (inr nested_files) (inr nested_envs) inr false.

(** The configuration a resolution ends with, for the examples that
    succeed. *)
Definition resolved (C : collaborators) (options : obj) : obj :=
  match (Bootstrap.resolve C options).2 with
  | inr c => c
  | inl _ => ∅
  end.

End Demo.


(* ===================================================================== *)
(** ** Reading a trace *)
(* ===================================================================== *)

Module Trace.

Section trace.
Context {L : Type}.

(** The second argument of each [helpers.merge] call, in call order. *)
Fixpoint merged_sources (t : list (event L)) : list obj :=
  match t with
  | [] => []
  | EvMerge _ new :: t => new :: merged_sources t
  | _ :: t => merged_sources t
  end.

(** What the calls of [helpers.loadFiles] that returned gave. *)
Fixpoint loaded_files (t : list (event L)) : list obj :=
  match t with
  | [] => []
  | EvLoadFiles _ (inr F) :: t => F :: loaded_files t
  | _ :: t => loaded_files t
  end.

(** What the calls of [helpers.loadEnvs] that returned gave. *)
Fixpoint loaded_envs (t : list (event L)) : list obj :=
  match t with
  | [] => []
  | EvLoadEnvs _ (inr E) :: t => E :: loaded_envs t
  | _ :: t => loaded_envs t
  end.

(** The plugins whose load completed, in the order of completion. *)
Fixpoint ended (t : list (event L)) : list value :=
  match t with
  | [] => []
  | EvLoadEnd p :: t => p :: ended t
  | _ :: t => ended t
  end.

(** How many times [emit] was called with the event [name]. *)
Fixpoint emitted (name : string) (t : list (event L)) : nat :=
  match t with
  | [] => 0
  | EvEmit n _ :: t =>
      (if bool_decide (n = name) then 1 else 0) + emitted name t
  | _ :: t => emitted name t
  end.

(** How many times the instance factory was called. *)
Fixpoint builds (t : list (event L)) : nat :=
  match t with
  | [] => 0
  | EvBuild _ :: t => 1 + builds t
  | _ :: t => builds t
  end.

End trace.
End Trace.


(* ===================================================================== *)
(** ** Collaborators that fail *)
(* ===================================================================== *)

Module Faults.
Import Demo.

(** Collaborators as in [Demo.collab], with the [post-bootstrap] handlers
    and the plugin loader as further parts. *)
Definition collab (d : obj) (files envs : result obj)
    (pre post : instance -> result instance)
    (loader : value -> value -> instance ->
              result (instance * option (instance -> result instance)))
    : collaborators :=
  {| Lando := instance;
     defaults := d;
     loadFiles := fun _ => files;
     loadEnvs := fun _ => envs;
     hash := digest;
     mkLando := fun c => inr (fresh c);
     lando_config := i_config;
     emit := fun name _ l =>
       if bool_decide (name = "pre-bootstrap") then pre l else post l;
     load := loader;
     settle_order := fun q => q;
     settle_order_perm := fun q => reflexivity q |}.

(** A loader that registers within the call, and throws on [P2]. *)
Definition loader_bad_P2 (plugin _ : value) (l : instance)
    : result (instance * option (instance -> result instance)) :=
  if bool_decide (name_of plugin = "P2")
  then inl (PluginInitError "P2")
  else inr (attach (name_of plugin) l, None).

(** A loader that registers within the call and keeps the search
    directories it was given. *)
Definition loader_dirs (plugin dirs : value) (l : instance)
    : result (instance * option (instance -> result instance)) :=
  inr (attach (name_of plugin +:+ " from " +:+ name_of dirs) l, None).

(** A [pre-bootstrap] handler that names three plugins and one search
    directory. *)
Definition add_three (l : instance) : result instance :=
  inr (set_config "pluginDirs" (VStr "/plugins")
         (set_config "plugins" (VArr [VStr "P1"; VStr "P2"; VStr "P3"]) l)).

(** The second of three plugins fails to load. *)
Definition bad_plugin : collaborators :=
  collab base (inr ∅) (inr ∅) add_three inr loader_bad_P2.

(** All three load, from the directory the handler named. *)
Definition three : collaborators :=
  collab base (inr ∅) (inr ∅) add_three inr loader_dirs.

(** A [post-bootstrap] handler fails. *)
Definition bad_post : collaborators :=
  collab base (inr ∅) (inr ∅) add_three
         (fun _ => inl (EventHandlerError "post-bootstrap" "H1"))
         loader_dirs.

(** The environment cannot be read. *)
Definition bad_env : collaborators :=
  collab base (inr {[ "c" := VNum 3 ]}) (inl (EnvParseError "LANDO_A"))
         add_three inr loader_dirs.

(** Defaults without [userConfRoot]. *)
Definition no_root : collaborators :=
  collab {[ "a" := VNum 1 ]} (inr ∅) (inr ∅) add_three inr loader_dirs.



End Faults.

(* ===================================================================== *)
(** ** Properties of the merge *)
(* ===================================================================== *)

Module ConfigFacts.
Import Config.

Lemma lookup_merge (old new : obj) (k : string) :
  merge old new !! k =
    match new !! k with
    | Some v => Some (match old !! k with
                      | Some u => merge_val u v
                      | None => v
                      end)
    | None => old !! k
    end.
Proof.
  unfold merge. rewrite lookup_union, map_lookup_imap.
  destruct (new !! k) as [v|]; simpl.
  - by destruct (old !! k).
  - by destruct (old !! k).
Qed.

Lemma merge_val_scalar (u v : value) :
  is_mapping v = false -> merge_val u v = v.
Proof. by destruct v. Qed.

Lemma merge_val_over_scalar (u v : value) :
  is_mapping u = false -> merge_val u v = v.
Proof. by destruct v, u. Qed.

Lemma merge_val_obj (mo mn : obj) :
  merge_val (VObj mo) (VObj mn) = VObj (merge mo mn).
Proof. reflexivity. Qed.

Lemma lookup_merge_absent (old new : obj) (k : string) :
  new !! k = None -> merge old new !! k = old !! k.
Proof. intros H. by rewrite lookup_merge, H. Qed.

Lemma prop_merge_absent (old new : obj) (k : string) :
  new !! k = None -> prop (merge old new) k = prop old k.
Proof. intros H. unfold prop. by rewrite lookup_merge_absent. Qed.

Lemma merge_empty_r (old : obj) : merge old ∅ = old.
Proof.
  apply map_eq. intros k. by rewrite lookup_merge, lookup_empty.
Qed.

End ConfigFacts.

(* ===================================================================== *)
(** ** Runs *)
(* ===================================================================== *)

Section run_facts.
Context {L : Type}.
Implicit Types t : list (event L).

Lemma bind_trace {A B} (m : run L A) (f : A -> run L B) :
  (bind m f).1 =
    m.1 ++ match m.2 with inr a => (f a).1 | inl _ => [] end.
Proof.
  destruct m as [t [e|a]]; simpl.
  - by rewrite app_nil_r.
  - by destruct (f a).
Qed.

Lemma bind_ok {A B} (m : run L A) (f : A -> run L B) t b :
  bind m f = (t, inr b) ->
  exists t1 a t2, m = (t1, inr a) /\ f a = (t2, inr b) /\ t = t1 ++ t2.
Proof.
  destruct m as [t1 [e|a]]; simpl; [done|].
  destruct (f a) as [t2 r] eqn:Hf. intros [= <- ->]. eauto 6.
Qed.

Lemma bind_err {A B} (m : run L A) (f : A -> run L B) t e :
  bind m f = (t, inl e) ->
  m = (t, inl e) \/
  exists t1 a t2, m = (t1, inr a) /\ f a = (t2, inl e) /\ t = t1 ++ t2.
Proof.
  destruct m as [t1 [e'|a]]; simpl.
  - intros [= <- <-]. by left.
  - destruct (f a) as [t2 r] eqn:Hf. intros [= <- ->]. right. eauto 6.
Qed.

Lemma bind_Forall {A B} (P : event L -> Prop) (m : run L A) (f : A -> run L B) :
  Forall P m.1 -> (forall a, Forall P (f a).1) -> Forall P (bind m f).1.
Proof.
  intros Hm Hf. rewrite bind_trace. apply Forall_app. split; [done|].
  destruct m.2; [constructor | apply Hf].
Qed.

Lemma in_flight_app (n : Z) t1 t2 :
  in_flight n (t1 ++ t2) = in_flight (in_flight n t1) t2.
Proof.
  revert n. induction t1 as [|e t1 IH]; intros n; [done|].
  destruct e; simpl; apply IH.
Qed.

Lemma max_in_flight_ge (n : Z) t : (n <= max_in_flight n t)%Z.
Proof.
  revert n. induction t as [|e t IH]; intros n; simpl; [lia|].
  destruct e; try apply IH; lia.
Qed.

Lemma max_in_flight_app (n : Z) t1 t2 :
  max_in_flight n (t1 ++ t2) =
    (max_in_flight n t1 `max` max_in_flight (in_flight n t1) t2)%Z.
Proof.
  revert n. induction t1 as [|e t1 IH]; intros n; simpl.
  - pose proof (max_in_flight_ge n t2). lia.
  - destruct e; simpl; rewrite ?IH; lia.
Qed.

Lemma in_flight_quiet (n : Z) t :
  Forall (fun e => is_load e = false) t -> in_flight n t = n.
Proof.
  induction 1 as [|e t He _ IH]; [done|]. by destruct e.
Qed.

Lemma max_in_flight_quiet (n : Z) t :
  Forall (fun e => is_load e = false) t -> max_in_flight n t = n.
Proof.
  induction 1 as [|e t He _ IH]; [done|]. by destruct e.
Qed.

Lemma in_flight_le_max (n : Z) t : (in_flight n t <= max_in_flight n t)%Z.
Proof.
  revert n. induction t as [|e t IH]; intros n; simpl; [lia|].
  destruct e; try apply IH.
  - specialize (IH (n + 1)%Z). lia.
  - specialize (IH (n - 1)%Z). lia.
Qed.

Lemma begun_app t1 t2 : begun (t1 ++ t2) = begun t1 ++ begun t2.
Proof.
  induction t1 as [|e t1 IH]; [done|]. destruct e; simpl; by rewrite ?IH.
Qed.

Lemma begun_quiet t : Forall (fun e => is_load e = false) t -> begun t = [].
Proof.
  induction 1 as [|e t He _ IH]; [done|]. by destruct e.
Qed.

Lemma begun_ends (ps : list value) : begun (EvLoadEnd (L:=L) <$> ps) = [].
Proof. by induction ps. Qed.

Lemma in_flight_ends (n : Z) (ps : list value) :
  in_flight n (EvLoadEnd (L:=L) <$> ps) = (n - Z.of_nat (length ps))%Z.
Proof.
  revert n. induction ps as [|p ps IH]; intros n; simpl; [lia|].
  rewrite IH. lia.
Qed.

Lemma max_in_flight_ends (n : Z) (ps : list value) :
  max_in_flight n (EvLoadEnd (L:=L) <$> ps) = n.
Proof.
  revert n. induction ps as [|p ps IH]; intros n; simpl; [done|].
  rewrite IH. lia.
Qed.

End run_facts.

(* ===================================================================== *)
(** ** The configuration (lines 77-94) *)
(* ===================================================================== *)

Module ResolveFacts.
Import Lodash Config ConfigFacts Bootstrap.

Section resolve_facts.
Context (C : collaborators).
Implicit Types (c config options : obj) (t : list (event (Lando C))).

(** What the block of lines 84-86 does, case by case. *)
Lemma merge_files_run c :
  merge_files C c =
    if isEmpty (prop c "configSources") then ([], inr c)
    else match loadFiles C (prop c "configSources") with
         | inl e => ([EvLoadFiles (prop c "configSources") (inl e)], inl e)
         | inr F => ([EvLoadFiles (prop c "configSources") (inr F);
                     EvMerge c F], inr (merge c F))
         end.
Proof.
  unfold merge_files, do_loadFiles.
  destruct (isEmpty _); simpl; [done|].
  by destruct (loadFiles C _).
Qed.

(** What the block of lines 89-91 does, case by case. *)
Lemma merge_envs_run c :
  merge_envs C c =
    if has c "envPrefix"
    then match loadEnvs C (prop c "envPrefix") with
         | inl e => ([EvLoadEnvs (prop c "envPrefix") (inl e)], inl e)
         | inr E => ([EvLoadEnvs (prop c "envPrefix") (inr E);
                      EvMerge c E], inr (merge c E))
         end
    else ([], inr c).
Proof.
  unfold merge_envs, do_loadEnvs.
  destruct (has _ _); simpl; [|done].
  by destruct (loadEnvs C _).
Qed.

Lemma hasher_run (seed : value) :
  hasher C seed =
    ([EvHash seed],
     match seed with
     | VUndef => inl (JsError "Object argument required.")
     | _ => inr (hash C seed)
     end).
Proof. by destruct seed. Qed.

(** A resolution that succeeds went through every step. *)
Lemma resolve_ok options t cfg :
  resolve C options = (t, inr cfg) ->
  exists tf c2 te c3,
    merge_files C (merge (defaults C) options) = (tf, inr c2) /\
    merge_envs C c2 = (te, inr c3) /\
    prop c3 "userConfRoot" <> VUndef /\
    cfg = <["id" := VStr (hash C (prop c3 "userConfRoot"))]> c3 /\
    t = [EvDefaults; EvMerge (defaults C) options] ++ tf ++ te
        ++ [EvHash (prop c3 "userConfRoot")].
Proof.
  unfold resolve. simpl.
  destruct (merge_files C _) as [tf [e|c2]] eqn:Hf; simpl; [done|].
  destruct (merge_envs C c2) as [te [e|c3]] eqn:He; simpl; [done|].
  rewrite hasher_run. simpl.
  destruct (prop c3 "userConfRoot") eqn:Hs; simpl; [done|..];
    intros [= <- <-]; exists tf, c2, te, c3.
  all: rewrite ?Hs; by repeat split.
Qed.

(** The sources a successful resolution merged: the files when
    [configSources] was not empty, the environment when [envPrefix] was
    there; the trace tells which. *)
Lemma resolve_sources options t cfg :
  resolve C options = (t, inr cfg) ->
  exists (oF oE : option obj) c3,
    c3 = from_option (merge (from_option (merge (merge (defaults C) options))
                                         (merge (defaults C) options) oF))
                     (from_option (merge (merge (defaults C) options))
                                  (merge (defaults C) options) oF) oE /\
    prop c3 "userConfRoot" <> VUndef /\
    cfg = <["id" := VStr (hash C (prop c3 "userConfRoot"))]> c3 /\
    (forall s F, EvLoadFiles s (inr F) ∈ t -> oF = Some F) /\
    (forall s E, EvLoadEnvs s (inr E) ∈ t -> oE = Some E) /\
    (forall F, oF = Some F -> exists s, EvLoadFiles s (inr F) ∈ t) /\
    (forall E, oE = Some E -> exists s, EvLoadEnvs s (inr E) ∈ t).
Proof.
  intros (tf & c2 & te & c3 & Hf & He & Hs & -> & ->)%resolve_ok.
  rewrite merge_files_run in Hf. rewrite merge_envs_run in He.
  set (c1 := merge (defaults C) options) in *.
  assert (exists oF, c2 = from_option (merge c1) c1 oF /\
            (forall s F, EvLoadFiles s (inr F) ∈ tf -> oF = Some F) /\
            (forall s r, EvLoadEnvs s r ∉ tf) /\
            forall F, oF = Some F -> exists s, EvLoadFiles s (inr F) ∈ tf)
    as (oF & -> & HF & HF' & HF'').
  { destruct (isEmpty _).
    - simplify_eq. exists None. split; [done|]. set_solver.
    - destruct (loadFiles C _) as [e|F0]; simplify_eq.
      exists (Some F0). split; [done|]. set_unfold. naive_solver eauto. }
  set (c2 := from_option (merge c1) c1 oF) in *.
  assert (exists oE, c3 = from_option (merge c2) c2 oE /\
            (forall s E, EvLoadEnvs s (inr E) ∈ te -> oE = Some E) /\
            (forall s r, EvLoadFiles s r ∉ te) /\
            forall E, oE = Some E -> exists s, EvLoadEnvs s (inr E) ∈ te)
    as (oE & -> & HE & HE' & HE'').
  { destruct (has _ _).
    - destruct (loadEnvs C _) as [e|E0]; simplify_eq.
      exists (Some E0). split; [done|]. set_unfold. naive_solver eauto.
    - simplify_eq. exists None. split; [done|]. set_solver. }
  exists oF, oE, (from_option (merge c2) c2 oE).
  repeat split; [done|..].
  - intros s F Hin. set_unfold in Hin. naive_solver.
  - intros s E Hin. set_unfold in Hin. naive_solver.
  - intros F [s Hin]%HF''. exists s. set_solver.
  - intros E [s Hin]%HE''. exists s. set_solver.
Qed.

(** C2, amended.  The resolved configuration obeys the precedence defaults <
    options < files < environment on every key but [id].  For a key other
    than [id] present in all four sources, the resolved value is the deep
    merge of the four values in that order, which is the value of the
    environment whenever that value is not a mapping; a key other than [id]
    that only the defaults have keeps the value of the defaults; and [id]
    is always the digest of [userConfRoot], whatever the sources hold for
    it. *)
Theorem merge_precedence options t cfg k :
  resolve C options = (t, inr cfg) ->
  k <> "id" ->
  (forall sF F sE E d o f e,
      EvLoadFiles sF (inr F) ∈ t -> EvLoadEnvs sE (inr E) ∈ t ->
      defaults C !! k = Some d -> options !! k = Some o ->
      F !! k = Some f -> E !! k = Some e ->
      cfg !! k = Some (merge_val (merge_val (merge_val d o) f) e) /\
      (is_mapping e = false -> cfg !! k = Some e)) /\
  (options !! k = None ->
   (forall s F, EvLoadFiles s (inr F) ∈ t -> F !! k = None) ->
   (forall s E, EvLoadEnvs s (inr E) ∈ t -> E !! k = None) ->
   cfg !! k = defaults C !! k) /\
  cfg !! "id" = Some (VStr (hash C (prop cfg "userConfRoot"))).
Proof.
  intros Hrun Hk.
  destruct (resolve_sources _ _ _ Hrun)
    as (oF & oE & c3 & Hc3 & Hs & -> & HF & HE & HF' & HE').
  split; [|split].
  - intros sF F sE E d o f e HinF HinE Hd Ho Hf He.
    apply HF in HinF as ->. apply HE in HinE as ->. simpl in Hc3.
    assert (c3 !! k = Some (merge_val (merge_val (merge_val d o) f) e)) as Hv.
    { rewrite Hc3, !lookup_merge, Hd, Ho, Hf, He. done. }
    rewrite lookup_insert_ne by done. split; [done|].
    intros Hm. by rewrite Hv, merge_val_scalar.
  - intros Ho HnF HnE. rewrite lookup_insert_ne by done.
    assert (forall c, from_option (merge c) c oF !! k = c !! k) as HcF.
    { intros c. destruct oF as [F|]; [|done]. simpl.
      destruct (HF' F eq_refl) as [s Hin].
      by rewrite lookup_merge_absent by eauto. }
    assert (forall c, from_option (merge c) c oE !! k = c !! k) as HcE.
    { intros c. destruct oE as [E|]; [|done]. simpl.
      destruct (HE' E eq_refl) as [s Hin].
      by rewrite lookup_merge_absent by eauto. }
    by rewrite Hc3, HcE, HcF, lookup_merge_absent.
  - rewrite lookup_insert_eq. unfold prop at 2.
    by rewrite lookup_insert_ne.
Qed.

End resolve_facts.
End ResolveFacts.

(* ===================================================================== *)
(** ** The promise chain (lines 125-166) *)
(* ===================================================================== *)

Module ChainFacts.
Import Lodash Config Bootstrap.

Section chain_facts.
Context (C : collaborators).
Implicit Types (l lando : Lando C) (t : list (event (Lando C))).
Implicit Types (ps : list value) (n : Z).
Implicit Types q : list (value * (Lando C -> result (Lando C))).

(** *** [.map]: the calls of the mapper *)

Lemma map_start_loads ps l q :
  Forall (fun e => is_load e = true) (map_start C ps l q).1.
Proof.
  revert l q. induction ps as [|p ps IH]; intros l q; simpl; [constructor|].
  destruct (load C p _ l) as [e|[l' [k|]]]; simpl.
  - by repeat constructor.
  - specialize (IH l' (q ++ [(p, k)])).
    destruct (map_start C ps l' _) as [t r]. by constructor.
  - specialize (IH l' q).
    destruct (map_start C ps l' _) as [t r]. by repeat constructor.
Qed.

(** The mapper is called on the entries in list order, each once, up to the
    first call that throws. *)
Lemma map_start_begun ps l q :
  begun (map_start C ps l q).1 `prefix_of` ps /\
  (forall r, (map_start C ps l q).2 = inr r ->
     begun (map_start C ps l q).1 = ps).
Proof.
  revert l q. induction ps as [|p ps IH]; intros l q; simpl.
  { split; [done|]. done. }
  destruct (load C p _ l) as [e|[l' [k|]]]; simpl.
  - split; [|done]. by apply prefix_cons, prefix_nil.
  - destruct (IH l' (q ++ [(p, k)])) as [IH1 IH2].
    destruct (map_start C ps l' _) as [t r]. simpl in *.
    split; [by apply prefix_cons|]. intros r' ->. f_equal. eauto.
  - destruct (IH l' q) as [IH1 IH2].
    destruct (map_start C ps l' _) as [t r]. simpl in *.
    split; [by apply prefix_cons|]. intros r' ->. f_equal. eauto.
Qed.

(** The loads in flight when the pass is over are the ones left pending. *)
Lemma map_start_in_flight ps l q n l' q' :
  (map_start C ps l q).2 = inr (l', q') ->
  in_flight n (map_start C ps l q).1 = (n + Z.of_nat (length q') - Z.of_nat (length q))%Z.
Proof.
  revert l q n. induction ps as [|p ps IH]; intros l q n; simpl.
  { intros [= <- <-]. lia. }
  destruct (load C p _ l) as [e|[l1 [k|]]]; simpl; [done|..].
  - specialize (IH l1 (q ++ [(p, k)]) (n + 1)%Z).
    destruct (map_start C ps l1 _) as [t r]. simpl in *.
    intros Hr. rewrite IH by done. rewrite length_app. simpl. lia.
  - specialize (IH l1 q n).
    destruct (map_start C ps l1 _) as [t r]. simpl in *.
    intros Hr. replace (n + 1 - 1)%Z with n by lia. by rewrite IH.
Qed.

(** When no load is pending on return, at most one is ever in flight and
    nothing is left to settle. *)
Lemma map_start_all_complete ps l q n :
  (forall p d l0 l1 k, load C p d l0 <> inr (l1, Some k)) ->
  (max_in_flight n (map_start C ps l q).1 <= n + 1)%Z /\
  (forall l' q', (map_start C ps l q).2 = inr (l', q') -> q' = q).
Proof.
  intros Hsync. revert l. induction ps as [|p ps IH]; intros l; simpl.
  { split; [lia|]. by intros l' q' [= <- <-]. }
  destruct (load C p _ l) as [e|[l1 [k|]]] eqn:Hl; simpl.
  - split; [lia|done].
  - by destruct (Hsync _ _ _ _ _ Hl).
  - destruct (IH l1) as [IH1 IH2].
    destruct (map_start C ps l1 q) as [t r]. simpl in *.
    replace (n + 1 - 1)%Z with n by lia. split; [lia|done].
Qed.

(** When every load is pending on return, the mapper has them all in flight
    at the end of the pass. *)
Lemma map_start_all_pending ps l q n l' q' :
  (forall p d l0 l1, load C p d l0 <> inr (l1, None)) ->
  (map_start C ps l q).2 = inr (l', q') ->
  max_in_flight n (map_start C ps l q).1 = (n + Z.of_nat (length ps))%Z /\
  length q' = (length q + length ps)%nat.
Proof.
  intros Hpend. revert l q n. induction ps as [|p ps IH]; intros l q n; simpl.
  { intros [= <- <-]. split; lia. }
  destruct (load C p _ l) as [e|[l1 [k|]]] eqn:Hl; simpl; [done|..].
  - specialize (IH l1 (q ++ [(p, k)]) (n + 1)%Z).
    destruct (map_start C ps l1 _) as [t r]. simpl in *.
    intros Hr. destruct (IH Hr) as [-> ->]. rewrite length_app. simpl.
    split; lia.
  - by destruct (Hpend _ _ _ _ Hl).
Qed.

(** *** [.map]: the pending loads settle *)

Lemma map_finish_trace q l :
  exists done,
    (map_finish C q l).1 = EvLoadEnd <$> done /\
    done `prefix_of` q.*1 /\
    (forall l', (map_finish C q l).2 = inr l' -> done = q.*1).
Proof.
  revert l. induction q as [|[p k] q IH]; intros l; simpl.
  { exists []. by repeat split. }
  destruct (k l) as [e|l1]; simpl.
  - exists []. repeat split; [apply prefix_nil|done].
  - destruct (IH l1) as (done & Ht & Hp & Hd).
    destruct (map_finish C q l1) as [t r]. simpl in *.
    exists (p :: done). subst t. repeat split.
    + by apply prefix_cons.
    + intros l' ->. f_equal. eauto.
Qed.

(** [.map] as a whole: only loads happen; the mapper is called on the
    entries in list order; when the whole is fulfilled every entry was
    begun and none is left in flight. *)
Lemma promise_map_trace ps l :
  Forall (fun e => is_load e = true) (promise_map C ps l).1 /\
  begun (promise_map C ps l).1 `prefix_of` ps /\
  (forall l', (promise_map C ps l).2 = inr l' ->
     begun (promise_map C ps l).1 = ps /\
     in_flight 0 (promise_map C ps l).1 = 0%Z).
Proof.
  unfold promise_map.
  pose proof (map_start_loads ps l []) as Hl.
  destruct (map_start_begun ps l []) as [Hp Hb].
  pose proof (fun l' q' => map_start_in_flight ps l [] 0 l' q') as Hn.
  destruct (map_start C ps l []) as [ts [e|[l1 q]]]; simpl in *.
  { repeat split; try done. }
  destruct (map_finish_trace (settle_order C q) l1) as (done & Ht & Hd & Hall).
  destruct (map_finish C (settle_order C q) l1) as [tf r]. simpl in *.
  subst tf. rewrite begun_app, begun_ends, app_nil_r.
  rewrite (Hb _ eq_refl). split; [|split; [done|]].
  - apply Forall_app. split; [done|]. apply Forall_fmap. by apply Forall_true.
  - intros l' Hr. split; [done|].
    rewrite in_flight_app, (Hn _ _ eq_refl), in_flight_ends.
    rewrite (Hall _ Hr), length_fmap.
    rewrite (Permutation_length (settle_order_perm C q)).
    simpl. lia.
Qed.

Lemma promise_map_all_complete ps l :
  (forall p d l0 l1 k, load C p d l0 <> inr (l1, Some k)) ->
  (max_in_flight 0 (promise_map C ps l).1 <= 1)%Z.
Proof.
  intros Hsync. unfold promise_map.
  destruct (map_start_all_complete ps l [] 0 Hsync) as [Hmax Hq].
  destruct (map_start C ps l []) as [ts [e|[l1 q]]]; simpl in *; [done|].
  rewrite (Hq _ _ eq_refl).
  rewrite (proj1 (Permutation_nil_r _) (settle_order_perm C [])). simpl.
  by rewrite app_nil_r.
Qed.

Lemma promise_map_all_pending ps l l' :
  (forall p d l0 l1, load C p d l0 <> inr (l1, None)) ->
  (promise_map C ps l).2 = inr l' ->
  max_in_flight 0 (promise_map C ps l).1 = Z.of_nat (length ps).
Proof.
  intros Hpend. unfold promise_map.
  pose proof (fun l' q' => map_start_all_pending ps l [] 0 l' q' Hpend) as Hmax.
  pose proof (fun l' q' => map_start_in_flight ps l [] 0 l' q') as Hn.
  destruct (map_start C ps l []) as [ts [e|[l1 q]]]; simpl in *; [done|].
  destruct (Hmax _ _ eq_refl) as [Hm Hlen].
  destruct (map_finish_trace (settle_order C q) l1) as (done & Ht & _).
  destruct (map_finish C (settle_order C q) l1) as [tf r]. simpl in *.
  intros _. subst tf.
  rewrite max_in_flight_app, max_in_flight_ends, (Hn _ _ eq_refl), Hm.
  simpl. lia.
Qed.

(** Over no plugin at all, [.map] does nothing. *)
Lemma promise_map_nil l : promise_map C [] l = ([], inr l).
Proof.
  unfold promise_map. simpl.
  by rewrite (proj1 (Permutation_nil_r _) (settle_order_perm C [])).
Qed.

(** *** The two halves of the function, case by case *)

Lemma sync_phase_run options :
  sync_phase C options =
    match resolve C options with
    | (t, inl e) => (t, inl e)
    | (t, inr cfg) =>
        match mkLando C cfg with
        | inl e => (t ++ [EvBuild cfg], inl e)
        | inr l =>
            (t ++ [EvBuild cfg; EvLog "info" "Bootstraping...";
                   EvLog "silly" "It's not particularly silly, is it?"],
             inr l)
        end
    end.
Proof.
  unfold sync_phase, do_build.
  destruct (resolve C options) as [t [e|cfg]]; simpl; [done|].
  by destruct (mkLando C cfg).
Qed.

Lemma async_phase_run l0 :
  async_phase C l0 =
    match emit C "pre-bootstrap" (PConfig (lando_config C l0)) l0 with
    | inl e => ([EvEmit "pre-bootstrap" (PConfig (lando_config C l0))], inl e)
    | inr l1 =>
        match as_array (js_or (prop (lando_config C l1) "plugins") (VArr []))
        with
        | inl e => (pre_events C l0, inl e)
        | inr ps =>
            match promise_map C ps l1 with
            | (tl, inl e) => (pre_events C l0 ++ tl, inl e)
            | (tl, inr l2) =>
                match emit C "post-bootstrap" (PLando l2) l2 with
                | inl e =>
                    (pre_events C l0 ++ tl
                       ++ [EvEmit "post-bootstrap" (PLando l2)], inl e)
                | inr l3 =>
                    (pre_events C l0 ++ tl
                       ++ [EvEmit "post-bootstrap" (PLando l2);
                           EvEmitDone "post-bootstrap";
                           EvLog "info" "Bootstrap completed."], inr l3)
                end
            end
        end
    end.
Proof.
  unfold async_phase, do_emit, pre_events.
  destruct (emit C "pre-bootstrap" _ l0) as [e|l1]; simpl; [done|].
  destruct (as_array _) as [e|ps]; simpl; [done|].
  destruct (promise_map C ps l1) as [tl [e|l2]]; simpl; [done|].
  destruct (emit C "post-bootstrap" _ l2) as [e|l3]; simpl; done.
Qed.

Lemma bootstrap_run options :
  bootstrap C options =
    match sync_phase C options with
    | (t, inl e) => (t, Threw e)
    | (t, inr l0) =>
        match emit C "pre-bootstrap" (PConfig (lando_config C l0)) l0 with
        | inl e =>
            (t ++ [EvEmit "pre-bootstrap" (PConfig (lando_config C l0))],
             Returned (Rejected e))
        | inr l1 =>
            match as_array (js_or (prop (lando_config C l1) "plugins")
                                  (VArr [])) with
            | inl e => (t ++ pre_events C l0, Returned (Rejected e))
            | inr ps =>
                match promise_map C ps l1 with
                | (tl, inl e) =>
                    (t ++ pre_events C l0 ++ tl, Returned (Rejected e))
                | (tl, inr l2) =>
                    match emit C "post-bootstrap" (PLando l2) l2 with
                    | inl e =>
                        (t ++ pre_events C l0 ++ tl
                           ++ [EvEmit "post-bootstrap" (PLando l2)],
                         Returned (Rejected e))
                    | inr l3 =>
                        (t ++ pre_events C l0 ++ tl
                           ++ [EvEmit "post-bootstrap" (PLando l2);
                               EvEmitDone "post-bootstrap";
                               EvLog "info" "Bootstrap completed."],
                         Returned (Fulfilled l3))
                    end
                end
            end
        end
    end.
Proof.
  unfold bootstrap.
  destruct (sync_phase C options) as [t [e|l0]]; [done|].
  rewrite async_phase_run.
  destruct (emit C "pre-bootstrap" _ l0) as [e|l1]; [done|].
  destruct (as_array _) as [e|ps]; [done|].
  destruct (promise_map C ps l1) as [tl [e|l2]]; [done|].
  by destruct (emit C "post-bootstrap" _ l2).
Qed.

(** Before the chain starts, nothing is emitted and nothing is loaded. *)
Lemma resolve_trace_config options :
  Forall (fun e => is_config e = true) (resolve C options).1.
Proof.
  unfold resolve. simpl.
  rewrite ResolveFacts.merge_files_run.
  destruct (isEmpty _); [|destruct (loadFiles C _)]; simpl;
    rewrite ?ResolveFacts.merge_envs_run;
    repeat match goal with
           | |- context [has ?c ?k] => destruct (has c k)
           | |- context [loadEnvs C ?p] => destruct (loadEnvs C p)
           end; simpl;
    rewrite ?ResolveFacts.hasher_run; simpl;
    repeat match goal with
           | |- context [match ?v with VUndef => _ | _ => _ end] => destruct v
           end; simpl; by repeat constructor.
Qed.

Lemma sync_phase_quiet options :
  Forall (fun e => is_load e = false /\ is_emit e = false)
         (sync_phase C options).1.
Proof.
  rewrite sync_phase_run.
  pose proof (resolve_trace_config options) as Hc.
  assert (Forall (fun e => is_load e = false /\ is_emit e = false)
                 (resolve C options).1) as Hq.
  { eapply Forall_impl; [done|]. intros e He. by destruct e. }
  destruct (resolve C options) as [t [e|cfg]]; simpl in *; [done|].
  destruct (mkLando C cfg); simpl; apply Forall_app; split; try done;
    by repeat constructor.
Qed.

End chain_facts.
End ChainFacts.

(* ===================================================================== *)
(** ** The bootstrap sequence *)
(* ===================================================================== *)

Module BootstrapFacts.
Import Lodash Config ConfigFacts ResolveFacts ChainFacts Bootstrap.

Section list_facts.
Context {A : Type} (P : A -> Prop).



End list_facts.

Section bootstrap_facts.
Context (C : collaborators).
Implicit Types (l lando : Lando C) (t : list (event (Lando C))).
Implicit Types (options : obj) (ps : list value).

(** C5.  When the [pre-bootstrap] emission fails, the run stops there: the
    trace ends with the call of [emit], so that no plugin is loaded and
    [post-bootstrap] is not emitted, and the promise handed to the caller is
    rejected with that very failure. *)
Theorem pre_bootstrap_failure options t0 l0 e :
  sync_phase C options = (t0, inr l0) ->
  emit C "pre-bootstrap" (PConfig (lando_config C l0)) l0 = inl e ->
  bootstrap C options =
    (t0 ++ [EvEmit "pre-bootstrap" (PConfig (lando_config C l0))],
     Returned (Rejected e)) /\
  (forall ev, ev ∈ (bootstrap C options).1 -> is_load ev = false) /\
  (forall p, EvEmit "post-bootstrap" p ∉ (bootstrap C options).1) /\
  (call C once_init options).2 = CallReturned (Some (Rejected e)).
Proof.
  intros Hs He.
  assert (bootstrap C options =
    (t0 ++ [EvEmit "pre-bootstrap" (PConfig (lando_config C l0))],
     Returned (Rejected e))) as Hb.
  { by rewrite bootstrap_run, Hs, He. }
  pose proof (sync_phase_quiet C options) as Hq. rewrite Hs in Hq.
  split; [done|]. rewrite Hb. simpl. repeat split.
  - intros ev [Hin| ->%list_elem_of_singleton]%elem_of_app; [|done].
    by apply (proj1 (Forall_forall _ _) Hq) in Hin as [? ?].
  - intros p [Hin| [=]%list_elem_of_singleton]%elem_of_app.
    by apply (proj1 (Forall_forall _ _) Hq) in Hin as [? ?].
  - unfold call. simpl. by rewrite Hb.
Qed.

(** C10.  When the configuration read after [pre-bootstrap] has no [plugins]
    key, or a falsy value under it, the plugin list is empty: the chain goes
    from [pre-bootstrap] straight to [post-bootstrap] without a load and
    without a failure of its own, and the run is fulfilled with the
    instance as soon as the [post-bootstrap] handlers succeed. *)
Theorem no_plugins options t0 l0 l1 :
  sync_phase C options = (t0, inr l0) ->
  emit C "pre-bootstrap" (PConfig (lando_config C l0)) l0 = inr l1 ->
  falsy (prop (lando_config C l1) "plugins") = true ->
  begun (bootstrap C options).1 = [] /\
  (forall ev, ev ∈ (bootstrap C options).1 -> is_load ev = false) /\
  bootstrap C options =
    match emit C "post-bootstrap" (PLando l1) l1 with
    | inr l2 =>
        (t0 ++ pre_events C l0
            ++ [EvEmit "post-bootstrap" (PLando l1);
                EvEmitDone "post-bootstrap";
                EvLog "info" "Bootstrap completed."],
         Returned (Fulfilled l2))
    | inl e =>
        (t0 ++ pre_events C l0 ++ [EvEmit "post-bootstrap" (PLando l1)],
         Returned (Rejected e))
    end.
Proof.
  intros Hs He Hf.
  assert (bootstrap C options =
    match emit C "post-bootstrap" (PLando l1) l1 with
    | inr l2 =>
        (t0 ++ pre_events C l0
            ++ [EvEmit "post-bootstrap" (PLando l1);
                EvEmitDone "post-bootstrap";
                EvLog "info" "Bootstrap completed."],
         Returned (Fulfilled l2))
    | inl e =>
        (t0 ++ pre_events C l0 ++ [EvEmit "post-bootstrap" (PLando l1)],
         Returned (Rejected e))
    end) as Hb.
  { rewrite bootstrap_run, Hs, He. unfold js_or. rewrite Hf. simpl.
    rewrite promise_map_nil.
    by destruct (emit C "post-bootstrap" _ l1). }
  pose proof (sync_phase_quiet C options) as Hq. rewrite Hs in Hq.
  assert (Forall (fun ev => is_load ev = false) (bootstrap C options).1) as Hn.
  { rewrite Hb. destruct (emit C "post-bootstrap" _ l1); simpl;
      (apply Forall_app; split;
       [eapply Forall_impl; [exact Hq|]; by intros ? [? ?]
       |by repeat constructor]). }
  split; [by apply begun_quiet|]. split; [|done].
  by apply Forall_forall.
Qed.

(** The three ways a run can go: it stops before the plugins; it stops
    among the plugins; or it reaches [post-bootstrap]. *)
Lemma bootstrap_cases options :
  (Forall (fun e => is_load e = false /\ forall p, e <> EvEmit "post-bootstrap" p)
          (bootstrap C options).1 /\
   forall l, (bootstrap C options).2 <> Returned (Fulfilled l)) \/
  exists t0 l0 l1 ps,
    sync_phase C options = (t0, inr l0) /\
    emit C "pre-bootstrap" (PConfig (lando_config C l0)) l0 = inr l1 /\
    as_array (js_or (prop (lando_config C l1) "plugins") (VArr [])) = inr ps /\
    ((exists e,
        (promise_map C ps l1).2 = inl e /\
        bootstrap C options =
          (t0 ++ pre_events C l0 ++ (promise_map C ps l1).1,
           Returned (Rejected e))) \/
     (exists l2 tail out,
        (promise_map C ps l1).2 = inr l2 /\
        bootstrap C options =
          (t0 ++ pre_events C l0 ++ (promise_map C ps l1).1
              ++ EvEmit "post-bootstrap" (PLando l2) :: tail, out) /\
        ((exists e, tail = [] /\ out = Returned (Rejected e)) \/
         (exists l3,
            tail = [EvEmitDone "post-bootstrap";
                    EvLog "info" "Bootstrap completed."] /\
            emit C "post-bootstrap" (PLando l2) l2 = inr l3 /\
            out = Returned (Fulfilled l3))))).
Proof.
  rewrite bootstrap_run.
  pose proof (sync_phase_quiet C options) as Hq.
  destruct (sync_phase C options) as [t0 [e|l0]] eqn:Hs; simpl in Hq.
  { left. split; [|done]. eapply Forall_impl; [exact Hq|].
    intros ev [? ?]. split; [done|]. by intros p ->. }
  assert (Forall (fun e => is_load e = false /\
                           forall p, e <> EvEmit "post-bootstrap" p) t0) as Hq'.
  { eapply Forall_impl; [exact Hq|].
    intros ev [? ?]. split; [done|]. by intros p ->. }
  destruct (emit C "pre-bootstrap" _ l0) as [e|l1] eqn:He.
  { left. split; [|done]. apply Forall_app. split; [done|].
    by repeat constructor. }
  destruct (as_array _) as [e|ps] eqn:Ha.
  { left. split; [|done]. apply Forall_app. split; [done|].
    by repeat constructor. }
  right. exists t0, l0, l1, ps. split_and!; [done..|].
  destruct (promise_map C ps l1) as [tl [e|l2]]; simpl.
  { left. by exists e. }
  right. destruct (emit C "post-bootstrap" _ l2) as [e|l3] eqn:Hp.
  - exists l2, [], (Returned (Rejected e)). split_and!; [done..|].
    left. by exists e.
  - exists l2, [EvEmitDone "post-bootstrap"; EvLog "info" "Bootstrap completed."],
      (Returned (Fulfilled l3)).
    split_and!; [done..|]. right. by exists l3.
Qed.


(** The trace of a run that got to the plugins, around the loads. *)
Lemma bootstrap_loads options t0 l0 l1 ps :
  sync_phase C options = (t0, inr l0) ->
  emit C "pre-bootstrap" (PConfig (lando_config C l0)) l0 = inr l1 ->
  as_array (js_or (prop (lando_config C l1) "plugins") (VArr [])) = inr ps ->
  exists tail,
    (bootstrap C options).1 =
      (t0 ++ pre_events C l0) ++ (promise_map C ps l1).1 ++ tail /\
    Forall (fun e => is_load e = false) (t0 ++ pre_events C l0) /\
    Forall (fun e => is_load e = false) tail /\
    (forall l, (bootstrap C options).2 = Returned (Fulfilled l) ->
       exists l2, (promise_map C ps l1).2 = inr l2).
Proof.
  intros Hs He Ha.
  pose proof (sync_phase_quiet C options) as Hq. rewrite Hs in Hq.
  assert (Forall (fun e => is_load e = false) (t0 ++ pre_events C l0)) as Hpre.
  { apply Forall_app. split; [|by repeat constructor].
    eapply Forall_impl; [exact Hq|]. by intros x [Hx _]. }
  rewrite bootstrap_run, Hs, He, Ha.
  destruct (promise_map C ps l1) as [tl [e|l2]]; cbn [fst snd].
  { exists []. rewrite app_nil_r, app_assoc. by split_and!. }
  destruct (emit C "post-bootstrap" _ l2) as [e|l3]; cbn [fst snd].
  - exists [EvEmit "post-bootstrap" (PLando l2)].
    rewrite <- !app_assoc. split_and!; [done..|by repeat constructor|done].
  - eexists. rewrite <- !app_assoc.
    split_and!; [done..|by repeat constructor|by eexists].
Qed.


(** C4, amended.  The plugin loader is called once for each entry of the
    list and the calls are made in list order, but a call is not held up by
    the loads before it: when every load is still pending on return, all of
    them are in flight at once before the first completes.  The loads are
    strictly one after the other only when each registration is complete by
    the time its call returns. *)
Theorem plugin_loads_overlap options t0 l0 l1 ps :
  sync_phase C options = (t0, inr l0) ->
  emit C "pre-bootstrap" (PConfig (lando_config C l0)) l0 = inr l1 ->
  prop (lando_config C l1) "plugins" = VArr ps ->
  begun (bootstrap C options).1 `prefix_of` ps /\
  (forall l, (bootstrap C options).2 = Returned (Fulfilled l) ->
     begun (bootstrap C options).1 = ps) /\
  ((forall p d la lb k, load C p d la <> inr (lb, Some k)) ->
   (max_in_flight 0 (bootstrap C options).1 <= 1)%Z) /\
  ((forall p d la lb, load C p d la <> inr (lb, None)) ->
   forall l, (bootstrap C options).2 = Returned (Fulfilled l) ->
   max_in_flight 0 (bootstrap C options).1 = Z.of_nat (length ps)).
Proof.
  intros Hs He Hp.
  assert (as_array (js_or (prop (lando_config C l1) "plugins") (VArr []))
          = inr ps) as Ha.
  { by rewrite Hp. }
  destruct (bootstrap_loads _ _ _ _ _ Hs He Ha) as (tail & Hb & Hpre & Htail & Hok).
  destruct (promise_map_trace C ps l1) as (_ & Hprefix & Hall).
  assert (begun (bootstrap C options).1 = begun (promise_map C ps l1).1) as Hbg.
  { rewrite Hb, begun_app, (begun_quiet _ Hpre), begun_app.
    by rewrite (begun_quiet _ Htail), app_nil_r. }
  assert (max_in_flight 0 (bootstrap C options).1
          = max_in_flight 0 (promise_map C ps l1).1) as Hmax.
  { rewrite Hb, max_in_flight_app.
    rewrite (max_in_flight_quiet _ _ Hpre), (in_flight_quiet _ _ Hpre).
    rewrite max_in_flight_app, (max_in_flight_quiet _ _ Htail).
    pose proof (in_flight_le_max 0 (promise_map C ps l1).1).
    pose proof (max_in_flight_ge 0 (promise_map C ps l1).1). lia. }
  split_and!.
  - by rewrite Hbg.
  - intros l [l2 Hl2]%Hok. rewrite Hbg. by apply (Hall l2).
  - intros Hsync. rewrite Hmax. by apply promise_map_all_complete.
  - intros Hpend l [l2 Hl2]%Hok. rewrite Hmax.
    by eapply promise_map_all_pending.
Qed.

(** C6.  When the configuration files are asked for and loading them fails,
    the function throws that failure as it is, a [ConfigLoadError] of the
    [config] stage; nothing was merged from the files and the instance was
    never built. *)
Theorem config_file_failure options e :
  isEmpty (prop (merge (defaults C) options) "configSources") = false ->
  loadFiles C (prop (merge (defaults C) options) "configSources") = inl e ->
  bootstrap C options =
    ([EvDefaults;
      EvMerge (defaults C) options;
      EvLoadFiles (prop (merge (defaults C) options) "configSources") (inl e)],
     Threw e) /\
  (forall cfg, EvBuild cfg ∉ (bootstrap C options).1) /\
  (forall a b, EvMerge a b ∈ (bootstrap C options).1 ->
     a = defaults C /\ b = options) /\
  (forall path, e = ConfigLoadError path -> stage e = Some "config").
Proof.
  intros Hne Hl.
  assert (bootstrap C options =
    ([EvDefaults;
      EvMerge (defaults C) options;
      EvLoadFiles (prop (merge (defaults C) options) "configSources") (inl e)],
     Threw e)) as Hb.
  { unfold bootstrap. rewrite sync_phase_run. unfold resolve. simpl.
    rewrite merge_files_run, Hne, Hl. done. }
  split; [done|]. rewrite Hb. cbn [fst]. split_and!.
  - intros cfg Hin. set_unfold in Hin. naive_solver.
  - intros a b Hin. set_unfold in Hin. naive_solver.
  - by intros path ->.
Qed.

(** The chain touches no configuration source. *)
Lemma async_phase_no_config l :
  Forall (fun e => is_config e = false) (async_phase C l).1.
Proof.
  rewrite async_phase_run.
  destruct (emit C "pre-bootstrap" _ l) as [e|l1]; [by repeat constructor|].
  destruct (as_array _) as [e|ps]; [by repeat constructor|].
  destruct (promise_map_trace C ps l1) as (Hl & _).
  assert (Forall (fun e => is_config e = false) (promise_map C ps l1).1) as Hc.
  { eapply Forall_impl; [exact Hl|]. intros x Hx. by destruct x. }
  destruct (promise_map C ps l1) as [tl [e|l2]]; cbn [fst snd] in *.
  { apply Forall_app. split; [by repeat constructor|done]. }
  destruct (emit C "post-bootstrap" _ l2); cbn [fst];
    rewrite !Forall_app; split_and!; try done; by repeat constructor.
Qed.



(** Once the counter is spent, a call runs nothing and hands back what
    [result] holds. *)
Lemma call_spent (st : once_cell (Lando C)) options :
  (n st <= 1)%Z ->
  call C st options =
    ({| n := n st - 1; func := false; once_result := once_result st |},
     [], CallReturned (once_result st)).
Proof.
  intros Hn. unfold call. rewrite bool_decide_false by lia.
  by rewrite bool_decide_true by lia.
Qed.

Lemma calls_spent (st : once_cell (Lando C)) (os : list obj) :
  (n st <= 1)%Z ->
  calls C st os =
    ([], replicate (length os) (CallReturned (once_result st))).
Proof.
  revert st. induction os as [|o os IH]; intros st Hn; [done|].
  simpl. rewrite call_spent by done. rewrite IH by (simpl; lia). done.
Qed.

(** C1, amended.  In a process, only the first call of the exported function
    runs the bootstrap sequence, and it runs it once: everything that
    happens over any number of calls is what that one run does.  When the
    first call returned its promise (which settles to the instance, or to a
    failure met from [pre-bootstrap] on), every later call returns that same
    promise, whatever its options.  When the first call threw (a failure met
    before [pre-bootstrap]: the configuration files, the digest, the
    construction of the instance), every later call returns [undefined]. *)
Theorem once_later_calls options (os : list obj) :
  calls C once_init (options :: os) =
    ((bootstrap C options).1,
     match (bootstrap C options).2 with
     | Returned p =>
         CallReturned (Some p)
           :: replicate (length os) (CallReturned (Some p))
     | Threw e =>
         CallThrew e :: replicate (length os) (CallReturned None)
     end).
Proof.
  cbn [calls]. unfold call. simpl.
  destruct (bootstrap C options) as [t [e|p]]; cbn [fst snd];
    rewrite calls_spent by (simpl; lia); by rewrite app_nil_r.
Qed.

End bootstrap_facts.


End BootstrapFacts.

(* ===================================================================== *)
(** ** The properties at work on the examples *)
(* ===================================================================== *)

Module Examples.
Import Lodash Config Bootstrap BootstrapFacts ResolveFacts Demo.

(** The example of the specification resolves as it says, next to the keys
    that drive the resolution and the [id]. *)
Example resolve_good :
  (resolve (good false) opts).2 = inr
    ({[ "a" := VNum 4; "b" := VNum 2; "c" := VNum 3;
        "configSources" := VArr [VStr "/etc/lando.yml"];
        "envPrefix" := VStr "LANDO_";
        "userConfRoot" := VStr "/home/me/.lando";
        "id" := VStr "sha1(/home/me/.lando)" ]} : obj).
Proof. vm_compute. reflexivity. Qed.

(** The deep merge of the specification: nested keys merge, sequences are
    replaced. *)
Example merge_deep :
  merge {[ "x" := VObj {[ "p" := VNum 1; "q" := VNum 1 ]} ]}
        {[ "x" := VObj {[ "q" := VNum 2 ]} ]}
    = {[ "x" := VObj {[ "p" := VNum 1; "q" := VNum 2 ]} ]} /\
  merge {[ "x" := VArr [VNum 1; VNum 2] ]} {[ "x" := VArr [VNum 3] ]}
    = {[ "x" := VArr [VNum 3] ]}.
Proof. split; vm_compute; reflexivity. Qed.

(** C1, as it is worded, fails when the first call throws: the
    configuration file is missing, the first call throws the
    [ConfigLoadError], and the second call returns [undefined] instead of
    that failure. *)
Lemma once_counterexample :
  (call no_file once_init opts).2
    = CallThrew (ConfigLoadError "/nonexistent") /\
  (call no_file (call no_file once_init opts).1.1 opts).2
    = CallReturned None /\
  (call no_file (call no_file once_init opts).1.1 opts).2
    <> (call no_file once_init opts).2.
Proof.
  assert ((call no_file once_init opts).2
          = CallThrew (ConfigLoadError "/nonexistent")) as H1.
  { vm_compute. reflexivity. }
  assert ((call no_file (call no_file once_init opts).1.1 opts).2
          = CallReturned None) as H2.
  { vm_compute. reflexivity. }
  split_and!; [exact H1|exact H2|]. rewrite H1, H2. discriminate.
Qed.

(** C2, as it is worded, fails on two kinds of keys.  [x] is in all four
    sources and resolves to the merge of the mappings, not to the value of
    the environment; [id] is in the defaults only and resolves to the
    digest, not to the value of the defaults. *)
Lemma precedence_counterexample :
  let cfg := resolved nested nested_opts in
  (resolve nested nested_opts).2 = inr cfg /\
  EvLoadFiles (VArr [VStr "/etc/lando.yml"]) (inr nested_files)
    ∈ (resolve nested nested_opts).1 /\
  EvLoadEnvs (VStr "LANDO_") (inr nested_envs)
    ∈ (resolve nested nested_opts).1 /\
  (is_Some (nested_base !! "x") /\ is_Some (nested_opts !! "x") /\
   is_Some (nested_files !! "x") /\
   nested_envs !! "x" = Some (VObj {[ "q" := VNum 4 ]}) /\
   cfg !! "x" = Some (VObj {[ "p" := VNum 3; "q" := VNum 4 ]}) /\
   cfg !! "x" <> nested_envs !! "x") /\
  (nested_base !! "id" = Some (VNum 7) /\ nested_opts !! "id" = None /\
   nested_files !! "id" = None /\ nested_envs !! "id" = None /\
   cfg !! "id" = Some (VStr "sha1(/home/me/.lando)") /\
   cfg !! "id" <> nested_base !! "id").
Proof.
  split_and!.
  all: try (vm_compute; reflexivity).
  all: try (vm_compute; eexists; reflexivity).
  - apply (list_elem_of_lookup_2 _ 2). vm_compute. reflexivity.
  - apply (list_elem_of_lookup_2 _ 4). vm_compute. reflexivity.
  - vm_compute. intros [= H].
  - vm_compute. discriminate.
Qed.

(** C4, as it is worded, fails when the registrations are asynchronous: the
    load of [P2] begins while that of [P1] is still pending, and the two are
    in flight together. *)
Lemma loads_counterexample :
  List.filter is_load (bootstrap (good true) opts).1 =
    [EvLoadBegin (VStr "P1") VUndef; EvLoadBegin (VStr "P2") VUndef;
     EvLoadEnd (VStr "P1"); EvLoadEnd (VStr "P2")] /\
  max_in_flight 0 (bootstrap (good true) opts).1 = 2%Z /\
  ~ (max_in_flight 0 (bootstrap (good true) opts).1 <= 1)%Z.
Proof. split_and!; [vm_compute; reflexivity..|vm_compute; by intros H]. Qed.

(** *** The theorems on the examples *)

(** C2 on the nested example: [k] is a number in all four sources and
    resolves to the value of the environment; [id] is the digest. *)
Lemma merge_precedence_witness :
  resolve nested nested_opts =
    ((resolve nested nested_opts).1, inr (resolved nested nested_opts)) /\
  "k" <> "id" /\
  resolved nested nested_opts !! "k" = Some (VNum 4) /\
  resolved nested nested_opts !! "id" = Some (VStr "sha1(/home/me/.lando)").
Proof.
  assert (resolve nested nested_opts =
    ((resolve nested nested_opts).1, inr (resolved nested nested_opts))) as H.
  { vm_compute. reflexivity. }
  assert ("k" <> "id") as Hk by discriminate.
  destruct (merge_precedence nested nested_opts _ _ "k" H Hk) as (HA & _ & Hid).
  split_and!; [done|done| |].
  - refine (proj2 (HA (VArr [VStr "/etc/lando.yml"]) nested_files
                      (VStr "LANDO_") nested_envs
                      (VNum 1) (VNum 2) (VNum 3) (VNum 4) _ _ _ _ _ _) _);
      try (vm_compute; reflexivity).
    + apply (list_elem_of_lookup_2 _ 2). vm_compute. reflexivity.
    + apply (list_elem_of_lookup_2 _ 4). vm_compute. reflexivity.
  - rewrite Hid. vm_compute. reflexivity.
Defined.


(** C5 on the run whose second [pre-bootstrap] handler fails. *)
Lemma pre_bootstrap_failure_witness :
  sync_phase bad_handler opts =
    ((sync_phase bad_handler opts).1, inr (fresh (resolved bad_handler opts))) /\
  emit bad_handler "pre-bootstrap"
       (PConfig (resolved bad_handler opts))
       (fresh (resolved bad_handler opts))
    = inl (EventHandlerError "pre-bootstrap" "H2") /\
  (bootstrap bad_handler opts).2
    = Returned (Rejected (EventHandlerError "pre-bootstrap" "H2")) /\
  (call bad_handler once_init opts).2
    = CallReturned (Some (Rejected (EventHandlerError "pre-bootstrap" "H2"))).
Proof.
  assert (sync_phase bad_handler opts =
    ((sync_phase bad_handler opts).1, inr (fresh (resolved bad_handler opts))))
    as Hs.
  { vm_compute. reflexivity. }
  destruct (pre_bootstrap_failure bad_handler opts _ _
              (EventHandlerError "pre-bootstrap" "H2") Hs eq_refl)
    as (Hb & _ & _ & Hc).
  split_and!; [done|reflexivity| |done].
  by rewrite Hb.
Defined.

(** C6 on the run whose configuration file is missing. *)
Lemma config_file_failure_witness :
  isEmpty (prop (merge (defaults no_file) opts) "configSources") = false /\
  loadFiles no_file (prop (merge (defaults no_file) opts) "configSources")
    = inl (ConfigLoadError "/nonexistent") /\
  (bootstrap no_file opts).2 = Threw (ConfigLoadError "/nonexistent") /\
  (forall cfg, EvBuild cfg ∉ (bootstrap no_file opts).1) /\
  stage (ConfigLoadError "/nonexistent") = Some "config".
Proof.
  assert (isEmpty (prop (merge (defaults no_file) opts) "configSources")
          = false) as Hne.
  { vm_compute. reflexivity. }
  destruct (config_file_failure no_file opts
              (ConfigLoadError "/nonexistent") Hne eq_refl)
    as (Hb & Hnb & _ & Hst).
  split_and!; [done|reflexivity| |done|by apply (Hst "/nonexistent")].
  by rewrite Hb.
Defined.


(** C10 on the run whose configuration names no plugin. *)
Lemma no_plugins_witness :
  falsy (prop (resolved plain opts) "plugins") = true /\
  begun (bootstrap plain opts).1 = [] /\
  (bootstrap plain opts).2
    = Returned (Fulfilled (fresh (resolved plain opts))).
Proof.
  assert (falsy (prop (resolved plain opts) "plugins") = true) as Hf.
  { vm_compute. reflexivity. }
  destruct (no_plugins plain opts (sync_phase plain opts).1
              (fresh (resolved plain opts)) (fresh (resolved plain opts)))
    as (Hb & _ & Hrun); [vm_compute; reflexivity|reflexivity|exact Hf|].
  split_and!; [done|done|]. by rewrite Hrun.
Defined.

(** C4 on the two kinds of registration: two loads in flight when they are
    pending on return, one at a time when they are complete on return. *)
Lemma plugin_loads_overlap_witness :
  max_in_flight 0 (bootstrap (good true) opts).1 = 2%Z /\
  (max_in_flight 0 (bootstrap (good false) opts).1 <= 1)%Z.
Proof.
  split.
  - refine (proj2 (proj2 (proj2 (plugin_loads_overlap (good true) opts
              (sync_phase (good true) opts).1
              (fresh (resolved (good true) opts))
              (set_config "plugins" (VArr [VStr "P1"; VStr "P2"])
                          (fresh (resolved (good true) opts)))
              [VStr "P1"; VStr "P2"] _ _ _))) _
            (attach "end P2" (attach "end P1" (attach "begin P2"
               (attach "begin P1"
                  (set_config "plugins" (VArr [VStr "P1"; VStr "P2"])
                              (fresh (resolved (good true) opts))))))) _);
      try (vm_compute; reflexivity).
    intros p d la lb. discriminate.
  - refine (proj1 (proj2 (proj2 (plugin_loads_overlap (good false) opts
              (sync_phase (good false) opts).1
              (fresh (resolved (good false) opts))
              (set_config "plugins" (VArr [VStr "P1"; VStr "P2"])
                          (fresh (resolved (good false) opts)))
              [VStr "P1"; VStr "P2"] _ _ _))) _);
      try (vm_compute; reflexivity).
    intros p d la lb k. discriminate.
Defined.



End Examples.

(* ===================================================================== *)
(** ** Further properties of the bootstrap *)
(* ===================================================================== *)

Module MoreFacts.
Import Lodash Config ConfigFacts ResolveFacts ChainFacts Bootstrap Trace.

Section trace_facts.
Context {L : Type}.
Implicit Types t : list (event L).

Lemma ended_app t1 t2 : ended (t1 ++ t2) = ended t1 ++ ended t2.
Proof.
  induction t1 as [|e t1 IH]; [done|]. destruct e; simpl; by rewrite ?IH.
Qed.

Lemma ended_ends (ps : list value) : ended (EvLoadEnd (L:=L) <$> ps) = ps.
Proof. induction ps as [|p ps IH]; [done|]. simpl. f_equal. exact IH. Qed.

Lemma ended_quiet t : Forall (fun e => is_load e = false) t -> ended t = [].
Proof.
  induction 1 as [|e t He _ IH]; [done|]. by destruct e.
Qed.

Lemma emitted_app (name : string) t1 t2 :
  emitted name (t1 ++ t2) = emitted name t1 + emitted name t2.
Proof.
  induction t1 as [|e t1 IH]; [done|]. destruct e; simpl; rewrite ?IH; lia.
Qed.

Lemma emitted_quiet (name : string) t :
  Forall (fun e => is_emit e = false) t -> emitted name t = 0.
Proof.
  induction 1 as [|e t He _ IH]; [done|]. by destruct e.
Qed.

Lemma builds_app t1 t2 : builds (t1 ++ t2) = builds t1 + builds t2.
Proof.
  induction t1 as [|e t1 IH]; [done|]. destruct e; simpl; rewrite ?IH; lia.
Qed.

Lemma builds_none t :
  Forall (fun e => forall c, e <> EvBuild c) t -> builds t = 0.
Proof.
  induction 1 as [|e t He _ IH]; [done|]. destruct e; try done.
  by destruct (He config).
Qed.

End trace_facts.

Section more_facts.
Context (C : collaborators).
Implicit Types (l lando : Lando C) (t : list (event (Lando C))).
Implicit Types (options : obj) (ps : list value).
Implicit Types q : list (value * (Lando C -> result (Lando C))).

(** *** The configuration *)

(** The resolution, case by case. *)
Lemma resolve_run options :
  resolve C options =
    match merge_files C (merge (defaults C) options) with
    | (tf, inl e) => ([EvDefaults; EvMerge (defaults C) options] ++ tf, inl e)
    | (tf, inr c2) =>
        match merge_envs C c2 with
        | (te, inl e) =>
            ([EvDefaults; EvMerge (defaults C) options] ++ tf ++ te, inl e)
        | (te, inr c3) =>
            ([EvDefaults; EvMerge (defaults C) options] ++ tf ++ te
               ++ [EvHash (prop c3 "userConfRoot")],
             match prop c3 "userConfRoot" with
             | VUndef => inl (JsError "Object argument required.")
             | seed => inr (<["id" := VStr (hash C seed)]> c3)
             end)
        end
    end.
Proof.
  unfold resolve. simpl.
  destruct (merge_files C _) as [tf [e|c2]]; simpl; [done|].
  destruct (merge_envs C c2) as [te [e|c3]]; simpl; [done|].
  rewrite hasher_run. simpl. rewrite <- ?app_assoc.
  by destruct (prop c3 "userConfRoot").
Qed.

(** After the resolution come the construction of the instance and the
    chain, neither of which touches the configuration sources or builds a
    second instance. *)
Lemma bootstrap_after_resolve options :
  match (resolve C options).2 with
  | inl e => bootstrap C options = ((resolve C options).1, Threw e)
  | inr cfg =>
      exists rest,
        (bootstrap C options).1
          = (resolve C options).1 ++ EvBuild cfg :: rest /\
        Forall (fun ev => is_config ev = false /\ forall c, ev <> EvBuild c)
               rest /\
        (forall e, (bootstrap C options).2 = Threw e ->
           mkLando C cfg = inl e /\ rest = [])
  end.
Proof.
  unfold bootstrap. rewrite sync_phase_run.
  destruct (resolve C options) as [t [e|cfg]]; cbn [fst snd]; [done|].
  destruct (mkLando C cfg) as [e|l].
  { exists []. split_and!; [done|done|]. by intros e' [= <-]. }
  pose proof (BootstrapFacts.async_phase_no_config C l) as Hc.
  assert (Forall (fun ev => forall c, ev <> EvBuild c) (async_phase C l).1)
    as Hb.
  { rewrite async_phase_run.
    destruct (emit C "pre-bootstrap" _ l) as [e|l1];
      [by repeat constructor|].
    destruct (as_array _) as [e|ps]; [by repeat constructor|].
    destruct (promise_map_trace C ps l1) as (Hl & _).
    assert (Forall (fun ev => forall c, ev <> EvBuild c)
                   (promise_map C ps l1).1) as Hm.
    { eapply Forall_impl; [exact Hl|]. intros x Hx c ->. done. }
    destruct (promise_map C ps l1) as [tl [e|l2]]; cbn [fst snd] in *.
    { apply Forall_app. split; [by repeat constructor|done]. }
    destruct (emit C "post-bootstrap" _ l2); cbn [fst];
      rewrite !Forall_app; split_and!; try done; by repeat constructor. }
  assert (Forall (fun ev => is_config ev = false /\ forall c, ev <> EvBuild c)
                 (async_phase C l).1) as Hboth.
  { apply Forall_forall. intros x Hx. split.
    - by apply (proj1 (Forall_forall _ _) Hc).
    - by apply (proj1 (Forall_forall _ _) Hb). }
  destruct (async_phase C l) as [ta [e|l']]; cbn [fst snd] in *.
  - eexists. rewrite <- app_assoc. split_and!; [done| |done].
    repeat (constructor; [done|]). done.
  - eexists. rewrite <- app_assoc. split_and!; [done| |done].
    repeat (constructor; [done|]). done.
Qed.

(** What the trace of a resolution says about its outcome. *)
Lemma resolve_events options :
  (forall s e, EvLoadFiles s (inl e) ∈ (resolve C options).1 ->
     (resolve C options).2 = inl e) /\
  (forall s e, EvLoadEnvs s (inl e) ∈ (resolve C options).1 ->
     (resolve C options).2 = inl e) /\
  (EvHash VUndef ∈ (resolve C options).1 ->
     (resolve C options).2 = inl (JsError "Object argument required.")) /\
  (forall c, EvBuild c ∉ (resolve C options).1).
Proof.
  rewrite resolve_run, merge_files_run.
  destruct (isEmpty _); [|destruct (loadFiles C _) as [e1|F]];
    (try rewrite merge_envs_run);
    repeat match goal with
           | |- context [has ?c ?k] => destruct (has c k)
           | |- context [loadEnvs C ?p] => destruct (loadEnvs C p)
           end;
    cbn [fst snd app];
    repeat match goal with
           | |- context [match ?v with VUndef => _ | _ => _ end] =>
               destruct v eqn:?
           end;
    (split_and!; [intros ? ? Hin|intros ? ? Hin|intros Hin|intros ? Hin]);
    set_unfold in Hin; naive_solver.
Qed.

(** X10.  The resolved configuration, [id] aside, is the defaults merged
    with the sources one after the other, each merge starting from the
    result of the one before: first the options, then what the files gave
    if they were read, then what the environment gave if it was read. *)
Theorem resolve_folds_sources options t cfg :
  resolve C options = (t, inr cfg) ->
  merged_sources t = options :: loaded_files t ++ loaded_envs t /\
  length (loaded_files t) <= 1 /\
  length (loaded_envs t) <= 1 /\
  cfg = <["id" := VStr (hash C (prop cfg "userConfRoot"))]>
          (foldl merge (defaults C) (merged_sources t)).
Proof.
  intros (tf & c2 & te & c3 & Hf & He & Hs & -> & ->)%resolve_ok.
  assert (prop (<["id" := VStr (hash C (prop c3 "userConfRoot"))]> c3)
               "userConfRoot" = prop c3 "userConfRoot") as ->.
  { unfold prop. by rewrite lookup_insert_ne. }
  rewrite merge_files_run in Hf. rewrite merge_envs_run in He.
  destruct (isEmpty _); [|destruct (loadFiles C _) as [e1|F]];
    simplify_eq;
    (destruct (has _ _); [destruct (loadEnvs C _) as [e2|E]|]);
    simplify_eq; simpl; split_and!; (done || lia).
Qed.


(** X5.  A failure of [loadFiles] or of [loadEnvs] is thrown out of the
    function as it is, and the instance is not built. *)
Theorem source_failure_throws options s e :
  EvLoadFiles s (inl e) ∈ (bootstrap C options).1 \/
  EvLoadEnvs s (inl e) ∈ (bootstrap C options).1 ->
  (bootstrap C options).2 = Threw e /\
  forall cfg, EvBuild cfg ∉ (bootstrap C options).1.
Proof.
  intros Hin.
  destruct (resolve_events options) as (HF & HE & _ & HB).
  pose proof (bootstrap_after_resolve options) as Hb.
  destruct (resolve C options) as [t [e'|cfg]] eqn:Hr; cbn [fst snd] in *.
  - rewrite Hb in Hin |- *. cbn [fst snd] in *.
    destruct Hin as [Hin|Hin]; [apply HF in Hin|apply HE in Hin];
      by simplify_eq.
  - exfalso. destruct Hb as (rest & Heq & Hrest & _). rewrite Heq in Hin.
    assert (forall ev, is_config ev = true -> ev ∈ t ++ EvBuild cfg :: rest ->
                       ev ∈ t) as Hcfg.
    { intros ev Hev [?|[->|Hx]%elem_of_cons]%elem_of_app; [done|done|].
      apply (proj1 (Forall_forall _ _) Hrest) in Hx as [Hx _].
      by rewrite Hx in Hev. }
    destruct Hin as [Hin|Hin]; apply Hcfg in Hin; try done.
    + by apply HF in Hin.
    + by apply HE in Hin.
Qed.

(** X4.  When the resolved configuration has no [userConfRoot], the digest
    cannot be taken: the function throws the error of object-hash and the
    instance is not built. *)
Theorem missing_root_throws options :
  EvHash VUndef ∈ (bootstrap C options).1 ->
  (bootstrap C options).2 = Threw (JsError "Object argument required.") /\
  forall cfg, EvBuild cfg ∉ (bootstrap C options).1.
Proof.
  intros Hin.
  destruct (resolve_events options) as (_ & _ & HH & HB).
  pose proof (bootstrap_after_resolve options) as Hb.
  destruct (resolve C options) as [t [e'|cfg]] eqn:Hr; cbn [fst snd] in *.
  - rewrite Hb in Hin |- *. cbn [fst snd] in *.
    apply HH in Hin. by simplify_eq.
  - exfalso. destruct Hb as (rest & Heq & Hrest & _). rewrite Heq in Hin.
    apply elem_of_app in Hin as [Hin|[Hin|Hin]%elem_of_cons]; try done.
    + by apply HH in Hin.
    + by apply (proj1 (Forall_forall _ _) Hrest) in Hin as [? _].
Qed.

(** X3.  The instance is built at most once, and the configuration handed
    to the factory is the resolved one: it has a defined [userConfRoot] and
    its [id] is the digest of it. *)
Theorem built_from_resolved options cfg :
  EvBuild cfg ∈ (bootstrap C options).1 ->
  (resolve C options).2 = inr cfg /\
  prop cfg "userConfRoot" <> VUndef /\
  cfg !! "id" = Some (VStr (hash C (prop cfg "userConfRoot"))) /\
  builds (bootstrap C options).1 = 1.
Proof.
  intros Hin.
  destruct (resolve_events options) as (_ & _ & _ & HB).
  pose proof (bootstrap_after_resolve options) as Hb.
  pose proof (ChainFacts.resolve_trace_config C options) as Hc.
  destruct (resolve C options) as [t [e'|cfg']] eqn:Hr; cbn [fst snd] in *.
  { rewrite Hb in Hin. by apply HB in Hin. }
  destruct Hb as (rest & Heq & Hrest & _). rewrite Heq in Hin |- *.
  assert (cfg = cfg') as ->.
  { apply elem_of_app in Hin as [Hin|[Hin|Hin]%elem_of_cons].
    - by apply HB in Hin.
    - by simplify_eq.
    - apply (proj1 (Forall_forall _ _) Hrest) in Hin as [_ Hne].
      by destruct (Hne cfg). }
  destruct (resolve_ok C _ _ _ Hr) as (tf & c2 & te & c3 & _ & _ & Hs & -> & _).
  assert (prop (<["id" := VStr (hash C (prop c3 "userConfRoot"))]> c3)
               "userConfRoot" = prop c3 "userConfRoot") as Hp.
  { unfold prop. by rewrite lookup_insert_ne. }
  split_and!; [done|by rewrite Hp|by rewrite Hp, lookup_insert_eq|].
  rewrite builds_app. simpl. rewrite (builds_none rest).
  2:{ eapply Forall_impl; [exact Hrest|]. by intros ? [_ ?]. }
  rewrite (builds_none t); [done|].
  eapply Forall_impl; [exact Hc|]. intros ev Hev c ->. done.
Qed.

(** *** The chain *)


(** X8.  The closing line [Bootstrap completed.] is logged exactly when the
    promise is fulfilled with the instance. *)
Theorem completed_iff_fulfilled options :
  EvLog "info" "Bootstrap completed." ∈ (bootstrap C options).1 <->
  exists l, (bootstrap C options).2 = Returned (Fulfilled l).
Proof.
  pose proof (resolve_trace_config C options) as Hc.
  rewrite bootstrap_run, sync_phase_run.
  set (done := EvLog "info" "Bootstrap completed.").
  assert (forall t, Forall (fun e => is_config e = true) t -> done ∉ t) as Hcfg.
  { intros t Ht Hin. by apply (proj1 (Forall_forall _ _) Ht) in Hin. }
  assert (forall t, Forall (fun e => is_load e = true) t -> done ∉ t) as Hld.
  { intros t Ht Hin. by apply (proj1 (Forall_forall _ _) Ht) in Hin. }
  destruct (resolve C options) as [t [e|cfg]]; cbn [fst snd] in *.
  { split; [intros Hin; by apply Hcfg in Hin|by intros [l ?]]. }
  specialize (Hcfg t Hc).
  destruct (mkLando C cfg) as [e|l0]; cbn [fst snd].
  { split; [|by intros [l ?]]. intros Hin. set_unfold in Hin. naive_solver. }
  destruct (emit C "pre-bootstrap" _ l0) as [?|l1]; cbn [fst snd].
  { split; [|by intros [l ?]]. intros Hin. set_unfold in Hin. naive_solver. }
  destruct (as_array _) as [?|ps]; cbn [fst snd].
  { split; [|by intros [l ?]]. intros Hin. unfold pre_events in Hin.
    set_unfold in Hin. naive_solver. }
  destruct (promise_map_trace C ps l1) as (Hl%Hld & _).
  destruct (promise_map C ps l1) as [tl [?|l2]]; cbn [fst snd] in *.
  { split; [|by intros [l ?]]. intros Hin. unfold pre_events in Hin.
    set_unfold in Hin. naive_solver. }
  destruct (emit C "post-bootstrap" _ l2) as [?|l3]; cbn [fst snd].
  { split; [|by intros [l ?]]. intros Hin. unfold pre_events in Hin.
    set_unfold in Hin. naive_solver. }
  split; [by exists l3|]. intros _. set_solver.
Qed.

(** X7.  Once [post-bootstrap] is emitted, its handlers alone decide the
    outcome: the promise is fulfilled with the instance as they leave it, or
    rejected with their failure. *)
Theorem post_bootstrap_decides options l2 :
  EvEmit "post-bootstrap" (PLando l2) ∈ (bootstrap C options).1 ->
  (bootstrap C options).2 =
    Returned (match emit C "post-bootstrap" (PLando l2) l2 with
              | inl e => Rejected e
              | inr l3 => Fulfilled l3
              end).
Proof.
  pose proof (sync_phase_quiet C options) as Hq.
  rewrite bootstrap_run.
  set (post := EvEmit "post-bootstrap" (PLando l2)).
  assert (forall t, Forall (fun e => is_load e = false /\ is_emit e = false) t ->
                    post ∉ t) as Hsync.
  { intros t Ht Hin. by apply (proj1 (Forall_forall _ _) Ht) in Hin as [? ?]. }
  assert (forall t, Forall (fun e => is_load e = true) t -> post ∉ t) as Hld.
  { intros t Ht Hin. by apply (proj1 (Forall_forall _ _) Ht) in Hin. }
  destruct (sync_phase C options) as [t0 [e|l0]]; cbn [fst snd] in *.
  { intros Hin. by apply Hsync in Hin. }
  specialize (Hsync t0 Hq).
  destruct (emit C "pre-bootstrap" _ l0) as [?|l1]; cbn [fst snd].
  { intros Hin. set_unfold in Hin. naive_solver. }
  destruct (as_array _) as [?|ps]; cbn [fst snd].
  { intros Hin. unfold pre_events in Hin. set_unfold in Hin. naive_solver. }
  destruct (promise_map_trace C ps l1) as (Hl%Hld & _).
  destruct (promise_map C ps l1) as [tl [?|l2']]; cbn [fst snd] in *.
  { intros Hin. unfold pre_events in Hin. set_unfold in Hin. naive_solver. }
  assert (post ∈ t0 ++ pre_events C l0 ++ tl
                   ++ [EvEmit "post-bootstrap" (PLando l2')] ->
          l2 = l2') as Hsame.
  { intros Hin. unfold pre_events in Hin. set_unfold in Hin. naive_solver. }
  destruct (emit C "post-bootstrap" _ l2') as [e|l3] eqn:Hp; cbn [fst snd].
  - intros ->%Hsame. by rewrite Hp.
  - intros Hin. assert (l2 = l2') as ->; [|by rewrite Hp].
    apply Hsame. unfold pre_events in *. set_unfold in Hin. set_unfold.
    naive_solver.
Qed.

(** X9.  Whatever the number of calls a process makes, and whatever their
    options, the instance is built at most once and each of the two events
    is emitted at most once, [post-bootstrap] never without
    [pre-bootstrap]. *)
Theorem lifecycle_once (os : list obj) :
  builds (calls C once_init os).1 <= 1 /\
  emitted "pre-bootstrap" (calls C once_init os).1 <= 1 /\
  emitted "post-bootstrap" (calls C once_init os).1
    <= emitted "pre-bootstrap" (calls C once_init os).1.
Proof.
  destruct os as [|options os]; [simpl; lia|].
  assert ((calls C once_init (options :: os)).1 = (bootstrap C options).1)
    as ->.
  { cbn [calls]. unfold call. simpl.
    destruct (bootstrap C options) as [t [e|p]]; cbn [fst snd];
      rewrite BootstrapFacts.calls_spent by (simpl; lia);
      by rewrite app_nil_r. }
  pose proof (resolve_trace_config C options) as Hc.
  rewrite bootstrap_run, sync_phase_run.
  assert (forall t, Forall (fun e => is_config e = true) t ->
            builds t = 0 /\ forall name, emitted name t = 0) as Hcfg.
  { intros t Ht. split; [|intros name].
    - apply builds_none. eapply Forall_impl; [exact Ht|]. by intros ? ? ? ->.
    - apply emitted_quiet. eapply Forall_impl; [exact Ht|].
      intros ev ?. by destruct ev. }
  assert (forall t, Forall (fun e => is_load e = true) t ->
            builds t = 0 /\ forall name, emitted name t = 0) as Hld.
  { intros t Ht. split; [|intros name].
    - apply builds_none. eapply Forall_impl; [exact Ht|]. by intros ? ? ? ->.
    - apply emitted_quiet. eapply Forall_impl; [exact Ht|].
      intros ev ?. by destruct ev. }
  destruct (resolve C options) as [t [e|cfg]]; cbn [fst snd] in *;
    destruct (Hcfg t Hc) as [Hb He].
  { rewrite Hb, !He. lia. }
  destruct (mkLando C cfg) as [e|l0]; cbn [fst snd].
  { rewrite builds_app, !emitted_app, Hb, !He. simpl. lia. }
  destruct (emit C "pre-bootstrap" _ l0) as [?|l1]; cbn [fst snd].
  { rewrite !builds_app, !emitted_app, Hb, !He. simpl. lia. }
  destruct (as_array _) as [?|ps]; cbn [fst snd].
  { rewrite !builds_app, !emitted_app, Hb, !He. simpl. lia. }
  destruct (promise_map_trace C ps l1) as ([Hlb Hle]%Hld & _).
  destruct (promise_map C ps l1) as [tl [?|l2]]; cbn [fst snd] in *.
  { rewrite !builds_app, !emitted_app, Hb, !He, Hlb, !Hle. simpl. lia. }
  destruct (emit C "post-bootstrap" _ l2) as [?|l3]; cbn [fst snd];
    rewrite !builds_app, !emitted_app, Hb, !He, Hlb, !Hle; simpl; lia.
Qed.

(** *** The plugins *)

(** The pass of the mapper over a list in two pieces. *)
Lemma map_start_app ps1 ps2 l q :
  map_start C (ps1 ++ ps2) l q =
    match map_start C ps1 l q with
    | (t, inl e) => (t, inl e)
    | (t, inr r) =>
        (t ++ (map_start C ps2 r.1 r.2).1, (map_start C ps2 r.1 r.2).2)
    end.
Proof.
  revert l q. induction ps1 as [|p ps1 IH]; intros l q; simpl.
  { by destruct (map_start C ps2 l q). }
  destruct (load C p _ l) as [e|[l1 [k|]]]; simpl; [done|..].
  - rewrite IH. by destruct (map_start C ps1 l1 _) as [t [e|r]].
  - rewrite IH. by destruct (map_start C ps1 l1 _) as [t [e|r]].
Qed.

(** X6.  A call of the loader that throws ends the pass over the plugins:
    the plugins after it in the list are never begun, the loads still
    pending are not waited for, [post-bootstrap] is not emitted and the
    promise is rejected with what the loader threw. *)
Theorem load_failure_stops options t0 l0 l1 ps1 p ps2 ts l' q e :
  sync_phase C options = (t0, inr l0) ->
  emit C "pre-bootstrap" (PConfig (lando_config C l0)) l0 = inr l1 ->
  prop (lando_config C l1) "plugins" = VArr (ps1 ++ p :: ps2) ->
  map_start C ps1 l1 [] = (ts, inr (l', q)) ->
  load C p (prop (lando_config C l') "pluginDirs") l' = inl e ->
  bootstrap C options =
    (t0 ++ pre_events C l0 ++ ts
        ++ [EvLoadBegin p (prop (lando_config C l') "pluginDirs")],
     Returned (Rejected e)) /\
  begun (bootstrap C options).1 = ps1 ++ [p] /\
  forall pl, EvEmit "post-bootstrap" pl ∉ (bootstrap C options).1.
Proof.
  intros Hs He Hp Hst Hl.
  pose proof (sync_phase_quiet C options) as Hq. rewrite Hs in Hq.
  destruct (map_start_begun C ps1 l1 []) as [_ Hb].
  pose proof (map_start_loads C ps1 l1 []) as Hld.
  rewrite Hst in Hb, Hld. cbn [fst snd] in *.
  assert (bootstrap C options =
    (t0 ++ pre_events C l0 ++ ts
        ++ [EvLoadBegin p (prop (lando_config C l') "pluginDirs")],
     Returned (Rejected e))) as Hrun.
  { rewrite bootstrap_run, Hs, He, Hp. cbn [js_or falsy as_array].
    unfold promise_map. rewrite map_start_app, Hst. cbn [fst snd].
    simpl. rewrite Hl. simpl. done. }
  assert (Forall (fun x => is_load x = false) (t0 ++ pre_events C l0)) as Hpre.
  { apply Forall_app. split; [|by repeat constructor].
    eapply Forall_impl; [exact Hq|]. by intros x [Hx _]. }
  rewrite Hrun. cbn [fst]. split_and!; [done| |].
  - rewrite app_assoc, begun_app, (begun_quiet _ Hpre), begun_app.
    by rewrite (Hb _ eq_refl).
  - intros pl Hin. rewrite app_assoc in Hin.
    apply elem_of_app in Hin as [Hin|[Hin|Hin]%elem_of_app].
    + apply elem_of_app in Hin as [Hin|Hin].
      * by apply (proj1 (Forall_forall _ _) Hq) in Hin as [? ?].
      * unfold pre_events in Hin. set_unfold in Hin. naive_solver.
    + by apply (proj1 (Forall_forall _ _) Hld) in Hin.
    + set_unfold in Hin. naive_solver.
Qed.

(** What the pass leaves pending is what was begun and has not ended. *)
Lemma map_start_ended ps l q l' q' :
  (map_start C ps l q).2 = inr (l', q') ->
  ended (map_start C ps l q).1 ++ q'.*1
    ≡ₚ q.*1 ++ begun (map_start C ps l q).1.
Proof.
  revert l q. induction ps as [|p ps IH]; intros l q; simpl.
  { intros [= <- <-]. by rewrite app_nil_r. }
  destruct (load C p _ l) as [e|[l1 [k|]]]; simpl; [done|..].
  - specialize (IH l1 (q ++ [(p, k)])).
    destruct (map_start C ps l1 _) as [t r]. simpl in *.
    intros Hr. rewrite (IH Hr), fmap_app. simpl.
    by rewrite <- app_assoc.
  - specialize (IH l1 q).
    destruct (map_start C ps l1 _) as [t r]. simpl in *.
    intros Hr. rewrite <- Permutation_middle. by rewrite <- (IH Hr).
Qed.

Lemma promise_map_ended ps l l' :
  (promise_map C ps l).2 = inr l' ->
  ended (promise_map C ps l).1 ≡ₚ begun (promise_map C ps l).1.
Proof.
  unfold promise_map.
  pose proof (fun l' q' => map_start_ended ps l [] l' q') as Hst.
  destruct (map_start C ps l []) as [ts [e|[l1 q]]]; simpl in *; [done|].
  destruct (map_finish_trace C (settle_order C q) l1) as (done & Ht & _ & Hd).
  destruct (map_finish C (settle_order C q) l1) as [tf r]. simpl in *.
  intros Hr. subst tf.
  rewrite ended_app, begun_app, ended_ends, begun_ends, app_nil_r.
  rewrite (Hd _ Hr), (settle_order_perm C q).
  by rewrite (Hst _ _ eq_refl).
Qed.

(** X11.  When the promise is fulfilled, the loads that completed are the
    loads that were begun, each once: no plugin of the list is left
    unfinished and none completes twice. *)
Theorem loads_complete_once options l :
  (bootstrap C options).2 = Returned (Fulfilled l) ->
  ended (bootstrap C options).1 ≡ₚ begun (bootstrap C options).1.
Proof.
  intros Hout.
  destruct (BootstrapFacts.bootstrap_cases C options)
    as [[_ Hn]|(t0 & l0 & l1 & ps & Hs & _ & _ & Hrest)].
  { by destruct (Hn l). }
  pose proof (sync_phase_quiet C options) as Hq. rewrite Hs in Hq.
  destruct Hrest as [(e' & _ & Hb)|(l2 & tail & out & Hm & Hb & Htail)];
    rewrite Hb in Hout |- *; cbn [fst snd] in *; [done|].
  assert (Forall (fun x => is_load x = false) (t0 ++ pre_events C l0)) as Hpre.
  { apply Forall_app. split; [|by repeat constructor].
    eapply Forall_impl; [exact Hq|]. by intros x [Hx _]. }
  assert (Forall (fun x => is_load x = false)
                 (EvEmit "post-bootstrap" (PLando l2) :: tail)) as Hpost.
  { destruct Htail as [(? & -> & _)|(? & -> & _)]; by repeat constructor. }
  rewrite app_assoc, ended_app, begun_app.
  rewrite (ended_quiet _ Hpre), (begun_quiet _ Hpre).
  rewrite ended_app, begun_app.
  rewrite (ended_quiet _ Hpost), (begun_quiet _ Hpost), !app_nil_r.
  by apply (promise_map_ended ps l1 l2).
Qed.

(** The search directories the pass hands to the loader, when no call of
    the loader changes them. *)
Lemma map_start_dirs (D : value) ps l q :
  (forall p d la lb k, load C p d la = inr (lb, k) ->
     prop (lando_config C lb) "pluginDirs"
       = prop (lando_config C la) "pluginDirs") ->
  prop (lando_config C l) "pluginDirs" = D ->
  Forall (fun e => forall p d, e = EvLoadBegin p d -> d = D)
         (map_start C ps l q).1.
Proof.
  intros Hstable. revert l q.
  induction ps as [|p ps IH]; intros l q HD; simpl; [constructor|].
  destruct (load C p _ l) as [e|[l1 [k|]]] eqn:Hl; simpl.
  - constructor; [|constructor]. by intros ? ? [= _ <-].
  - specialize (IH l1 (q ++ [(p, k)])).
    rewrite (Hstable _ _ _ _ _ Hl) in IH. specialize (IH HD).
    destruct (map_start C ps l1 _) as [t r]. simpl in *.
    constructor; [|done]. by intros ? ? [= _ <-].
  - specialize (IH l1 q).
    rewrite (Hstable _ _ _ _ _ Hl) in IH. specialize (IH HD).
    destruct (map_start C ps l1 _) as [t r]. simpl in *.
    constructor; [by intros ? ? [= _ <-]|]. constructor; [done|done].
Qed.

(** X12.  The search directories, like the plugin list, are read from the
    configuration after [pre-bootstrap]: as long as no call of the loader
    changes them, every plugin is looked for in the [pluginDirs] the
    handlers left. *)
Theorem plugin_dirs_after_pre options t0 l0 l1 :
  (forall p d la lb k, load C p d la = inr (lb, k) ->
     prop (lando_config C lb) "pluginDirs"
       = prop (lando_config C la) "pluginDirs") ->
  sync_phase C options = (t0, inr l0) ->
  emit C "pre-bootstrap" (PConfig (lando_config C l0)) l0 = inr l1 ->
  forall p d, EvLoadBegin p d ∈ (bootstrap C options).1 ->
              d = prop (lando_config C l1) "pluginDirs".
Proof.
  intros Hstable Hs He p d Hin.
  pose proof (sync_phase_quiet C options) as Hq. rewrite Hs in Hq.
  assert (EvLoadBegin p d ∉ t0) as Ht0.
  { intros Hx. by apply (proj1 (Forall_forall _ _) Hq) in Hx as [? ?]. }
  rewrite bootstrap_run, Hs, He in Hin.
  destruct (as_array _) as [?|ps]; cbn [fst snd] in Hin.
  { unfold pre_events in Hin. set_unfold in Hin. naive_solver. }
  assert (forall x, x ∈ (promise_map C ps l1).1 ->
            forall p d, x = EvLoadBegin p d ->
                        d = prop (lando_config C l1) "pluginDirs") as Hmap.
  { unfold promise_map.
    pose proof (map_start_dirs _ ps l1 [] Hstable eq_refl) as Hd.
    destruct (map_start C ps l1 []) as [ts [e|[l2 q]]]; simpl in *.
    { intros x Hx. by apply (proj1 (Forall_forall _ _) Hd). }
    destruct (map_finish_trace C (settle_order C q) l2) as (done & Ht & _).
    destruct (map_finish C (settle_order C q) l2) as [tf r]. simpl in *.
    subst tf. intros x [Hx|Hx]%elem_of_app.
    - by apply (proj1 (Forall_forall _ _) Hd).
    - apply list_elem_of_fmap in Hx as (y & -> & _). done. }
  destruct (promise_map C ps l1) as [tl [?|l2]]; cbn [fst snd] in *.
  { unfold pre_events in Hin. set_unfold in Hin.
    destruct Hin as [?|[?|[?|[?|Hin]]]]; try done. by eapply Hmap. }
  destruct (emit C "post-bootstrap" _ l2); cbn [fst snd] in Hin;
    unfold pre_events in Hin; set_unfold in Hin;
    destruct Hin as [?|[?|[?|[?|[Hin|?]]]]]; try done;
    try (by eapply Hmap); naive_solver.
Qed.

End more_facts.
End MoreFacts.

(* ===================================================================== *)
(** ** The further properties at work on the examples *)
(* ===================================================================== *)

Module MoreExamples.
Import Lodash Config Bootstrap Trace MoreFacts Demo Faults.


(** X3 on the example of the specification. *)
Lemma built_from_resolved_witness :
  EvBuild (resolved (good false) opts) ∈ (bootstrap (good false) opts).1 /\
  builds (bootstrap (good false) opts).1 = 1 /\
  resolved (good false) opts !! "id" = Some (VStr "sha1(/home/me/.lando)").
Proof.
  assert (EvBuild (resolved (good false) opts)
            ∈ (bootstrap (good false) opts).1) as Hin.
  { apply (list_elem_of_lookup_2 _ 7). vm_compute. reflexivity. }
  destruct (built_from_resolved (good false) opts _ Hin) as (_ & _ & Hid & Hb).
  split_and!; [exact Hin|exact Hb|]. rewrite Hid. vm_compute. reflexivity.
Defined.

(** X4 on defaults without [userConfRoot]. *)
Lemma missing_root_throws_witness :
  EvHash VUndef ∈ (bootstrap no_root ∅).1 /\
  (bootstrap no_root ∅).2 = Threw (JsError "Object argument required.").
Proof.
  assert (EvHash VUndef ∈ (bootstrap no_root ∅).1) as Hin.
  { apply (list_elem_of_lookup_2 _ 2). vm_compute. reflexivity. }
  split; [exact Hin|]. exact (proj1 (missing_root_throws no_root ∅ Hin)).
Defined.

(** X5 on an environment that cannot be read. *)
Lemma source_failure_throws_witness :
  EvLoadEnvs (VStr "LANDO_") (inl (EnvParseError "LANDO_A"))
    ∈ (bootstrap bad_env opts).1 /\
  (bootstrap bad_env opts).2 = Threw (EnvParseError "LANDO_A").
Proof.
  assert (EvLoadEnvs (VStr "LANDO_") (inl (EnvParseError "LANDO_A"))
            ∈ (bootstrap bad_env opts).1) as Hin.
  { apply (list_elem_of_lookup_2 _ 4). vm_compute. reflexivity. }
  split; [exact Hin|].
  exact (proj1 (source_failure_throws bad_env opts _ _ (or_intror Hin))).
Defined.

(** X6 on three plugins of which the second fails to load: the third is
    never begun. *)
Lemma load_failure_stops_witness :
  begun (bootstrap bad_plugin opts).1 = [VStr "P1"; VStr "P2"] /\
  (bootstrap bad_plugin opts).2 = Returned (Rejected (PluginInitError "P2")).
Proof.
  destruct (load_failure_stops bad_plugin opts
              (sync_phase bad_plugin opts).1
              (fresh (resolved bad_plugin opts))
              (set_config "pluginDirs" (VStr "/plugins")
                 (set_config "plugins"
                    (VArr [VStr "P1"; VStr "P2"; VStr "P3"])
                    (fresh (resolved bad_plugin opts))))
              [VStr "P1"] (VStr "P2") [VStr "P3"]
              [EvLoadBegin (VStr "P1") (VStr "/plugins");
               EvLoadEnd (VStr "P1")]
              (attach "P1"
                 (set_config "pluginDirs" (VStr "/plugins")
                    (set_config "plugins"
                       (VArr [VStr "P1"; VStr "P2"; VStr "P3"])
                       (fresh (resolved bad_plugin opts)))))
              [] (PluginInitError "P2"))
    as (Hrun & Hb & _); try (vm_compute; reflexivity).
  split; [exact Hb|]. rewrite Hrun. reflexivity.
Defined.

(** X7 on a failing [post-bootstrap] handler, after three loads. *)
Lemma post_bootstrap_decides_witness :
  (bootstrap bad_post opts).2
    = Returned (Rejected (EventHandlerError "post-bootstrap" "H1")).
Proof.
  rewrite (post_bootstrap_decides bad_post opts
             (attach "P3 from /plugins" (attach "P2 from /plugins"
                (attach "P1 from /plugins"
                   (set_config "pluginDirs" (VStr "/plugins")
                      (set_config "plugins"
                         (VArr [VStr "P1"; VStr "P2"; VStr "P3"])
                         (fresh (resolved bad_post opts)))))))).
  - reflexivity.
  - apply (list_elem_of_lookup_2 _ 19). vm_compute. reflexivity.
Defined.

(** X10 on the example of the specification: options, then files, then
    environment. *)
Lemma resolve_folds_sources_witness :
  merged_sources (resolve (good false) opts).1
    = [opts; {[ "c" := VNum 3 ]}; {[ "a" := VNum 4 ]}].
Proof.
  destruct (resolve_folds_sources (good false) opts
              (resolve (good false) opts).1 (resolved (good false) opts))
    as (Hm & _); [vm_compute; reflexivity|].
  rewrite Hm. vm_compute. reflexivity.
Defined.

(** X11 on three plugins that all load. *)
Lemma loads_complete_once_witness :
  ended (bootstrap three opts).1 ≡ₚ begun (bootstrap three opts).1.
Proof.
  apply (loads_complete_once three opts
           (attach "P3 from /plugins" (attach "P2 from /plugins"
              (attach "P1 from /plugins"
                 (set_config "pluginDirs" (VStr "/plugins")
                    (set_config "plugins"
                       (VArr [VStr "P1"; VStr "P2"; VStr "P3"])
                       (fresh (resolved three opts)))))))).
  vm_compute. reflexivity.
Defined.

(** X12 on a handler that names the search directory: the three plugins
    are looked for there. *)
Lemma plugin_dirs_after_pre_witness :
  EvLoadBegin (VStr "P2") (VStr "/plugins") ∈ (bootstrap three opts).1 /\
  VStr "/plugins"
    = prop (i_config
              (set_config "pluginDirs" (VStr "/plugins")
                 (set_config "plugins"
                    (VArr [VStr "P1"; VStr "P2"; VStr "P3"])
                    (fresh (resolved three opts)))))
           "pluginDirs".
Proof.
  assert (EvLoadBegin (VStr "P2") (VStr "/plugins")
            ∈ (bootstrap three opts).1) as Hin.
  { apply (list_elem_of_lookup_2 _ 15). vm_compute. reflexivity. }
  split; [exact Hin|].
  exact (plugin_dirs_after_pre three opts
           (sync_phase three opts).1
           (fresh (resolved three opts))
           (set_config "pluginDirs" (VStr "/plugins")
              (set_config "plugins"
                 (VArr [VStr "P1"; VStr "P2"; VStr "P3"])
                 (fresh (resolved three opts))))
           ltac:(by intros ? ? ? ? ? [= <- _])
           ltac:(vm_compute; reflexivity)
           ltac:(vm_compute; reflexivity) _ _ Hin).
Defined.


Lemma completed_iff_fulfilled_witness :
  EvLog "info" "Bootstrap completed." ∈ (bootstrap (good false) opts).1.
Proof.
  apply (completed_iff_fulfilled (good false) opts).
  eexists. vm_compute. reflexivity.
Defined.

End MoreExamples.
